(** * ResourceHost: resource resolution and in-memory cache of the HTTP server

    A shallow embedding of [src/ResourceHost.cpp].  The member functions
    [loadFile], [loadDirectory], [listDirectory] and [getResource] are
    written in a small state monad that threads the cache map and a journal
    of the calls the code makes to the operating system and to the cache.
    The file system is an oracle ([FileSystem]) that only answers; the code
    under study never writes to disk. *)

From Stdlib Require Import ZArith Lia.
From Stdlib.Strings Require Import Ascii String Byte.
From stdpp Require Import base option list strings gmap.

Local Open Scope string_scope.
Local Open Scope list_scope.
Local Open Scope Z_scope.

(** ** Constants of [<sys/stat.h>]

    The values are those of Linux (and of every System V descendant);
    they are given in decimal with the usual octal form in the comment. *)

Definition S_IRWXU : Z := 448.    (* 0000700 : rwx for the owner *)
Definition S_IRUSR : Z := 256.    (* 0000400 *)
Definition S_IWUSR : Z := 128.    (* 0000200 *)
Definition S_IXUSR : Z := 64.     (* 0000100 *)
Definition S_IFMT  : Z := 61440.  (* 0170000 : mask of the type field *)
Definition S_IFSOCK : Z := 49152. (* 0140000 *)
Definition S_IFLNK : Z := 40960.  (* 0120000 *)
Definition S_IFREG : Z := 32768.  (* 0100000 *)
Definition S_IFBLK : Z := 24576.  (* 0060000 *)
Definition S_IFDIR : Z := 16384.  (* 0040000 *)
Definition S_IFCHR : Z := 8192.   (* 0020000 *)
Definition S_IFIFO : Z := 4096.   (* 0010000 *)

(** [struct stat], restricted to the two fields the code reads.
    [st_mode] is a [mode_t] (unsigned, 32 bits), [st_size] an [off_t]
    (signed, 64 bits). *)
Record stat_t : Type := mk_stat { st_mode : Z; st_size : Z }.

(** Conversion to [unsigned int], as performed by
    [unsigned int len = sb.st_size] and
    [unsigned int slen = listing.length()]. *)
Definition to_uint (z : Z) : Z := z mod 2 ^ 32.

(** A C condition [if (m & mask)]. *)
Definition bits_set (m mask : Z) : bool := negb (Z.land m mask =? 0).

(** ** [std::string] and C strings *)

Definition NUL : ascii := "000"%char.

(** [s.c_str()] read back as a C string: the characters before the first
    NUL. *)
Fixpoint c_str (s : string) : string :=
  match s with
  | EmptyString => EmptyString
  | String c s' => if Ascii.eqb c NUL then EmptyString else String c (c_str s')
  end.

Fixpoint char_in (c : ascii) (chars : string) : bool :=
  match chars with
  | EmptyString => false
  | String d chars' => Ascii.eqb c d || char_in c chars'
  end.

(** [s.find_last_of(chars)]: the position of the last character of [s]
    that is equal to one of the characters of [chars]; [None] is
    [std::string::npos].  [i] is the position of the head of [s] and [acc]
    the last match seen so far. *)
Fixpoint find_last_of_from (i : nat) (acc : option nat) (s chars : string)
  : option nat :=
  match s with
  | EmptyString => acc
  | String c s' =>
      find_last_of_from (S i) (if char_in c chars then Some i else acc) s' chars
  end.

Definition find_last_of (s chars : string) : option nat :=
  find_last_of_from 0 None s chars.

(** [s.substr(pos)] for [pos <= s.length()]. *)
Fixpoint substr (s : string) (pos : nat) : string :=
  match pos, s with
  | O, _ => s
  | S p, String _ s' => substr s' p
  | S _, EmptyString => EmptyString
  end.

(** [path[path.length()-1] != '/'].  The code indexes without a bounds
    check; [getResource] only passes non-empty paths.  On the empty path
    the model answers [true], the branch that appends the separator. *)
Fixpoint last_is_not_slash (path : string) : bool :=
  match path with
  | EmptyString => true
  | String c EmptyString => negb (Ascii.eqb c "/"%char)
  | String _ path' => last_is_not_slash path'
  end.

(** The one-character string holding a double quote. *)
Definition dquote : string := String "034"%char EmptyString.

Definition bytes_of (s : string) : list byte := list_byte_of_string s.

(** [strncpy(dst, src, n)] into a fresh buffer of [n] cells: the characters
    of the C string [src], cut at [n], and NUL padding up to [n]. *)
Definition strncpy (src : string) (n : nat) : list byte :=
  take n (bytes_of (c_str src) ++ replicate n x00).

(** ** Resource *)

(** Modelled from the spec: the class [Resource] is declared in
    [Resource.h], which is not part of the sources at hand.  The spec gives
    it a location (the cache key), a byte buffer with its length, a MIME
    type assigned after load and a directory flag; [Resource(path)] and
    [Resource(path, true)] set the location and the flag, [setData]
    attaches buffer and length. *)
Record Resource : Type := mk_Resource {
  location : string;
  directory : bool;
  mimeType : string;
  data : list byte;
  size : Z
}.

Definition new_Resource (loc : string) (dir : bool) : Resource :=
  {| location := loc; directory := dir; mimeType := EmptyString;
     data := []; size := 0 |}.

Definition setData (r : Resource) (d : list byte) (s : Z) : Resource :=
  {| location := location r; directory := directory r;
     mimeType := mimeType r; data := d; size := s |}.

Definition setMimeType (r : Resource) (m : string) : Resource :=
  {| location := location r; directory := directory r;
     mimeType := m; data := data r; size := size r |}.

Definition getLocation (r : Resource) : string := location r.

(** ** The file system oracle

    - [fs_stat p] is [stat(p, &sb)]: [None] for [-1];
    - [fs_open p] is [ifstream::open(p, binary)]: [None] when the stream is
      not open afterwards, otherwise the bytes a read will deliver;
    - [fs_opendir p] is [opendir(p)]: [None] for [NULL], otherwise the
      [d_name] of every entry [readdir] returns, in that order. *)
Record FileSystem : Type := mk_fs {
  fs_stat : string -> option stat_t;
  fs_open : string -> option (list byte);
  fs_opendir : string -> option (list string)
}.

(** ** Journal and state *)

Inductive event : Type :=
  | EvStat (p : string)            (* stat(p, _) *)
  | EvOpen (p : string)            (* file.open(p, binary) *)
  | EvNew (n : Z)                  (* new byte[n] / new char[n] *)
  | EvRead (p : string) (n : Z)    (* file.read(buf, n) *)
  | EvOpendir (p : string)         (* opendir(p) *)
  | EvInsert (k : string).         (* cacheMap->insert((k, _)) *)

Definition is_fs_event (e : event) : bool :=
  match e with
  | EvStat _ | EvOpen _ | EvRead _ _ | EvOpendir _ => true
  | EvNew _ | EvInsert _ => false
  end.

Record host : Type := mk_host {
  cacheMap : gmap string Resource;
  journal : list event
}.

Definition Host (A : Type) : Type := host -> A * host.

Definition ret {A} (a : A) : Host A := fun h => (a, h).

Definition bind {A B} (m : Host A) (k : A -> Host B) : Host B :=
  fun h => let '(a, h') := m h in k a h'.

Declare Scope host_scope.
Delimit Scope host_scope with host.
Notation "'let*' x ':=' m 'in' k" := (bind m (fun x => k))
  (at level 10, x name, m at level 100, k at level 200) : host_scope.
Notation "'exec' m 'in' k" := (bind m (fun _ => k))
  (at level 10, m at level 100, k at level 200) : host_scope.

Definition emit (e : event) : Host unit :=
  fun h => (tt, {| cacheMap := cacheMap h; journal := journal h ++ [e] |}).

(** [cacheMap->find(k)]. *)
Definition cache_find (k : string) : Host (option Resource) :=
  fun h => (cacheMap h !! k, h).

(** [std::unordered_map::insert]: the pair is stored only when the key is
    not yet present. *)
Definition map_insert (k : string) (r : Resource) (m : gmap string Resource)
  : gmap string Resource :=
  match m !! k with
  | Some _ => m
  | None => <[k := r]> m
  end.

Definition cache_insert (k : string) (r : Resource) : Host unit :=
  fun h => (tt, {| cacheMap := map_insert k r (cacheMap h);
                   journal := journal h ++ [EvInsert k] |}).

(** [ResourceHost::clearCache]: every Resource of the cache is deleted and
    the map is emptied. *)
Definition clearCache : Host unit :=
  fun h => (tt, {| cacheMap := ∅; journal := journal h |}).

(** ** The member functions of [ResourceHost] *)

Section ResourceHost.

(** The object's field [baseDiskPath], the table [validIndexes] of
    [ResourceHost.h], the collaborator [Resource::guessMimeType] (as a
    function of the location) and the oracle. *)
Variable baseDiskPath : string.
Variable validIndexes : list string.
Variable guessMimeType : string -> string.
Variable fs : FileSystem.

(** The content of memory obtained from [new byte[len]] before anything
    is written to it, cell by cell. *)
Variable fresh_cell : nat -> byte.

(** [new byte[len]] followed by [file.read(fdata, len)]: the first [len]
    bytes of the file, and cells the read did not reach keep what the
    allocation left in them. *)
Definition read_into (len : nat) (content : list byte) : list byte :=
  take len content
    ++ (fresh_cell <$> seq (length (take len content))
                           (len - length (take len content))).

Local Open Scope host_scope.

Definition loadFile (path : string) (sb : stat_t) : Host (option Resource) :=
  if negb (bits_set (st_mode sb) S_IRWXU) then ret None
  else
    exec emit (EvOpen (c_str path)) in
    match fs_open fs (c_str path) with
    | None => ret None
    | Some content =>
        let len := to_uint (st_size sb) in
        exec emit (EvNew len) in
        exec emit (EvRead (c_str path) len) in
        let fdata := read_into (Z.to_nat len) content in
        let res := new_Resource path false in
        let res := setMimeType res (guessMimeType (location res)) in
        let res := setData res fdata len in
        exec cache_insert (getLocation res) res in
        ret (Some res)
    end.

(** The [<<] of one directory entry. *)
Definition link (uri d_name : string) : string :=
  "<a href=" +:+ dquote +:+ uri +:+ d_name +:+ dquote +:+ ">"
    +:+ d_name +:+ "</a><br />".

(** [ent->d_name[0] == '.'] *)
Definition hidden (d_name : string) : bool :=
  match d_name with
  | String c _ => Ascii.eqb c "."%char
  | EmptyString => false
  end.

(** The [while ((ent = readdir(dir)) != NULL)] loop over the stream
    [out]. *)
Fixpoint list_entries (uri : string) (ents : list string) (out : string)
  : string :=
  match ents with
  | [] => out
  | d_name :: ents' =>
      if hidden d_name then list_entries uri ents' out
      else list_entries uri ents' (out +:+ link uri d_name)
  end.

(** The local [uri] of [listDirectory]. *)
Definition listing_uri (path : string) : string :=
  match find_last_of path baseDiskPath with
  | Some uri_pos => substr path uri_pos
  | None => "?"
  end.

Definition listDirectory (path : string) : Host string :=
  let uri := listing_uri path in
  let out := "<html><head><title>" +:+ uri +:+ "</title></head><body>" in
  exec emit (EvOpendir (c_str path)) in
  match fs_opendir fs (c_str path) with
  | None => ret EmptyString
  | Some ents =>
      let out := out +:+ "<h1>Index of " +:+ uri +:+ "</h1><hr><br />" in
      let out := list_entries uri ents out in
      ret (out +:+ "</body></html>")
  end.

(** The [for] loop over [validIndexes]: [Some r] when the loop returned
    [r] from inside, [None] when it ran to its end. *)
Fixpoint probe_indexes (path : string) (idxs : list string)
  : Host (option (option Resource)) :=
  match idxs with
  | [] => ret None
  | idx :: idxs' =>
      let loadIndex := path +:+ idx in
      exec emit (EvStat (c_str loadIndex)) in
      match fs_stat fs (c_str loadIndex) with
      | Some sidx =>
          let* r := loadFile (c_str loadIndex) sidx in
          ret (Some r)
      | None => probe_indexes path idxs'
      end
  end.

Definition normalize (path : string) : string :=
  if last_is_not_slash path then path +:+ "/" else path.

Definition loadDirectory (path : string) (sb : stat_t)
  : Host (option Resource) :=
  let path := normalize path in
  let* found := probe_indexes path validIndexes in
  match found with
  | Some r => ret r
  | None =>
      if negb (bits_set (st_mode sb) S_IRWXU) then ret None
      else
        let* listing := listDirectory path in
        let slen := to_uint (Z.of_nat (String.length listing)) in
        exec emit (EvNew slen) in
        let sdata := strncpy listing (Z.to_nat slen) in
        let res := new_Resource path true in
        let res := setData res sdata slen in
        exec cache_insert (getLocation res) res in
        ret (Some res)
  end.

Definition getResource (uri : string) : Host (option Resource) :=
  if (255 <? String.length uri)%nat || (String.length uri =? 0)%nat
  then ret None
  else
    let path := baseDiskPath +:+ uri in
    let* hit := cache_find path in
    match hit with
    | Some res => ret (Some res)
    | None =>
        exec emit (EvStat (c_str path)) in
        match fs_stat fs (c_str path) with
        | None => ret None
        | Some sb =>
            if bits_set (st_mode sb) S_IFDIR then loadDirectory path sb
            else if bits_set (st_mode sb) S_IFREG then loadFile path sb
            else ret None
        end
    end.

End ResourceHost.

(** ** Vocabulary of the statements *)

(** [S_ISREG(m)] and [S_ISDIR(m)] of [<sys/stat.h>]: the type field
    compared as a whole. *)
Definition S_ISREG (m : Z) : bool := Z.land m S_IFMT =? S_IFREG.
Definition S_ISDIR (m : Z) : bool := Z.land m S_IFMT =? S_IFDIR.

(** The precondition of [getResource] that lets a request through. *)
Definition valid_uri (uri : string) : Prop :=
  uri <> EmptyString /\ (String.length uri <= 255)%nat.

(** The state [h] after the calls [es] have been journalled. *)
Definition logged (h : host) (es : list event) : host :=
  {| cacheMap := cacheMap h; journal := journal h ++ es |}.

(** The state [h] after [cacheMap->insert((k, r))]. *)
Definition stored (h : host) (k : string) (r : Resource) : host :=
  {| cacheMap := map_insert k r (cacheMap h);
     journal := journal h ++ [EvInsert k] |}.

(** The Resource [loadFile] builds for [path] from the snapshot [sb] and
    the bytes [content] of the opened file. *)
Definition file_resource (guessMimeType : string -> string)
    (fresh_cell : nat -> byte) (path : string) (sb : stat_t)
    (content : list byte) : Resource :=
  {| location := path; directory := false;
     mimeType := guessMimeType path;
     data := read_into fresh_cell (Z.to_nat (to_uint (st_size sb))) content;
     size := to_uint (st_size sb) |}.

(** The Resource [loadDirectory] builds around a listing. *)
Definition listing_resource (path listing : string) : Resource :=
  {| location := path; directory := true; mimeType := EmptyString;
     data := strncpy listing
               (Z.to_nat (to_uint (Z.of_nat (String.length listing))));
     size := to_uint (Z.of_nat (String.length listing)) |}.

(** The [stat] calls of the index probe, for the candidates [idxs]. *)
Definition probes (path : string) (idxs : list string) : list event :=
  (fun idx => EvStat (c_str (path +:+ idx))) <$> idxs.

Fixpoint concat_strings (ss : list string) : string :=
  match ss with
  | [] => EmptyString
  | s :: ss' => s +:+ concat_strings ss'
  end.

(** The document of a listing: title and heading show [uri], the body is
    the sequence [links]. *)
Definition page (uri : string) (links : list string) : string :=
  "<html><head><title>" +:+ uri +:+ "</title></head><body>"
    +:+ "<h1>Index of " +:+ uri +:+ "</h1><hr><br />"
    +:+ concat_strings links +:+ "</body></html>".

Definition visible (d_name : string) : bool := negb (hidden d_name).

(** The logical URI in the words of the spec and of the comment at the head
    of [listDirectory]: the absolute path with [baseDiskPath] stripped from
    its beginning, and the placeholder when the path does not begin with
    it.  It is set against [listing_uri], which is what the code
    computes. *)
Fixpoint strip_prefix (base path : string) : option string :=
  match base, path with
  | EmptyString, _ => Some path
  | String b base', String p path' =>
      if Ascii.eqb b p then strip_prefix base' path' else None
  | String _ _, EmptyString => None
  end.

Definition stripped_uri (base path : string) : string :=
  match strip_prefix base path with
  | Some uri => uri
  | None => "?"
  end.

(** Three statements in the words of the spec, each about one request on a
    host [run] (or one call of a loader [load]); the code is set against
    them further down on the document root.

    - the second of two consecutive calls with [uri] is a cache hit: both
      calls return a Resource, with the same buffer and location, and the
      second call leaves the host as it found it;
    - a file whose owner bits are not all three set is refused;
    - a regular file that passes the permission check is returned with a
      buffer as long as the size of its snapshot. *)
Definition second_call_is_hit (run : string -> Host (option Resource))
    (uri : string) (h : host) : Prop :=
  exists r1 r2 h1,
    run uri h = (Some r1, h1) /\ run uri h1 = (Some r2, h1) /\
    data r1 = data r2 /\ location r1 = location r2.

Definition refused_unless_all_owner_bits
    (load : string -> stat_t -> Host (option Resource))
    (path : string) (sb : stat_t) (h : host) : Prop :=
  Z.land (st_mode sb) S_IRWXU <> S_IRWXU -> fst (load path sb h) = None.

Definition loaded_with_stat_size (run : string -> Host (option Resource))
    (uri : string) (sb : stat_t) (h : host) : Prop :=
  S_ISREG (st_mode sb) = true -> bits_set (st_mode sb) S_IRWXU = true ->
  exists r h',
    run uri h = (Some r, h') /\
    size r = st_size sb /\ Z.of_nat (length (data r)) = st_size sb.

(** ** A document root to run the code on

    [./htdocs] holds a text file, a directory [docs] with an index page, a
    directory [img] without one, a directory [foo], a directory [locked]
    whose mode (0300) lets the owner traverse but not read it, a write-only
    file, and a Unix socket. *)

Definition lookup_path {A} (table : list (string * A)) (p : string)
  : option A :=
  snd <$> List.find (fun e => String.eqb (fst e) p) table.

Definition htdocs : string := "./htdocs".

Definition indexes : list string := ["index.html"; "index.htm"].

Definition mime (loc : string) : string := "text/html".

Definition zeroed (i : nat) : byte := x00.

Definition htdocs_stat : list (string * stat_t) :=
  [ ("./htdocs/a.txt",           mk_stat 33188 3);   (* 0100644 *)
    ("./htdocs/docs",            mk_stat 16877 4096);(* 0040755 *)
    ("./htdocs/docs/",           mk_stat 16877 4096);
    ("./htdocs/docs/index.html", mk_stat 33188 2);
    ("./htdocs/img",             mk_stat 16877 4096);
    ("./htdocs/img/",            mk_stat 16877 4096);
    ("./htdocs/foo",             mk_stat 16877 4096);
    ("./htdocs/foo/",            mk_stat 16877 4096);
    ("./htdocs/locked",          mk_stat 16576 4096);(* 0040300 *)
    ("./htdocs/locked/",         mk_stat 16576 4096);
    ("./htdocs/old",             mk_stat 16877 4096);
    ("./htdocs/old/",            mk_stat 16877 4096);
    ("./htdocs/old/index.htm",   mk_stat 33188 2);
    ("./htdocs/wo.txt",          mk_stat 32896 3);   (* 0100200 *)
    ("./htdocs/ctl.sock",        mk_stat 49645 0) ]. (* 0140755 *)

Definition htdocs_files : list (string * list byte) :=
  [ ("./htdocs/a.txt",           [x61; x62; x63]);
    ("./htdocs/docs/index.html", [x68; x69]);
    ("./htdocs/old/index.htm",   [x68; x69]) ].

Definition htdocs_dirs : list (string * list string) :=
  [ ("./htdocs/docs/", ["."; ".."; "index.html"]);
    ("./htdocs/img/",  ["."; ".."; "a.png"; ".git"; "b.png"]);
    ("./htdocs/foo/",  ["."; ".."; "a.txt"]);
    ("./htdocs/old/",  ["."; ".."; "index.htm"]) ].

Definition htdocs_fs : FileSystem :=
  {| fs_stat := lookup_path htdocs_stat;
     fs_open := lookup_path htdocs_files;
     fs_opendir := lookup_path htdocs_dirs |}.

(** A second root, holding one file of exactly 4 GiB. *)
Definition four_GiB : Z := 4294967296.

Definition iso_content : list byte := replicate (Z.to_nat four_GiB) x00.

Definition iso_fs : FileSystem :=
  {| fs_stat := lookup_path [("./htdocs/big.iso", mk_stat 33188 four_GiB)];
     fs_open := lookup_path [("./htdocs/big.iso", iso_content)];
     fs_opendir := fun _ => None |}.

(** The host right after construction: empty cache, nothing journalled. *)
Definition fresh_host : host := {| cacheMap := ∅; journal := [] |}.

(** A URI of 256 characters. *)
Definition long_uri : string :=
  String "/"%char (string_of_list_ascii (replicate 255 "a"%char)).

(** [getResource] of a host serving [./htdocs]. *)
Definition resolve : string -> Host (option Resource) :=
  getResource htdocs indexes mime htdocs_fs zeroed.

(** The Resources the document root gives rise to. *)
Definition a_txt : Resource :=
  {| location := "./htdocs/a.txt"; directory := false;
     mimeType := "text/html"; data := [x61; x62; x63]; size := 3 |}.

Definition index_page : Resource :=
  {| location := "./htdocs/docs/index.html"; directory := false;
     mimeType := "text/html"; data := [x68; x69]; size := 2 |}.

Definition old_index_page : Resource :=
  {| location := "./htdocs/old/index.htm"; directory := false;
     mimeType := "text/html"; data := [x68; x69]; size := 2 |}.

Definition empty_listing (path : string) : Resource :=
  {| location := path; directory := true; mimeType := EmptyString;
     data := []; size := 0 |}.

(** The journal of a load of [docs/index.html] through the directory
    [docs], up to the insertion. *)
Definition docs_load : list event :=
  [ EvStat "./htdocs/docs"; EvStat "./htdocs/docs/index.html";
    EvOpen "./htdocs/docs/index.html"; EvNew 2;
    EvRead "./htdocs/docs/index.html" 2 ].

Definition after_docs : host :=
  stored (logged fresh_host docs_load) "./htdocs/docs/index.html" index_page.

Definition a_txt_load : list event :=
  [ EvStat "./htdocs/a.txt"; EvOpen "./htdocs/a.txt"; EvNew 3;
    EvRead "./htdocs/a.txt" 3 ].

Definition after_a_txt : host :=
  stored (logged fresh_host a_txt_load) "./htdocs/a.txt" a_txt.

(** ** Vocabulary of the properties of the cache and of the journal *)

(** Every entry of the cache sits under the location of its Resource. *)
Definition keyed (m : gmap string Resource) : Prop :=
  forall k r, m !! k = Some r -> location r = k.

(** The length field of a Resource is the length of its buffer, and it fits
    the [unsigned int] it is kept in. *)
Definition well_sized (r : Resource) : Prop :=
  Z.of_nat (length (data r)) = size r /\ size r < 2 ^ 32.

(** A Resource fresh from a loader: file bytes under the path that was
    opened, or a listing under a directory path. *)
Definition fresh_from_loader (guessMimeType : string -> string)
    (fs : FileSystem) (fresh_cell : nat -> byte) (r : Resource) : Prop :=
  (exists path sb content,
     fs_open fs (c_str path) = Some content /\
     r = file_resource guessMimeType fresh_cell path sb content) \/
  (exists path listing, r = listing_resource (normalize path) listing).

(** No character of [s] occurs in [chars]. *)
Fixpoint shares_no_char (s chars : string) : bool :=
  match s with
  | EmptyString => true
  | String c s' => negb (char_in c chars) && shares_no_char s' chars
  end.

(** A string without NUL: its C string is the string itself. *)
Definition nul_free (s : string) : Prop := c_str s = s.

(** A run of requests, each answered under the file system of its moment;
    the host after the last one. *)
Fixpoint serve (baseDiskPath : string) (validIndexes : list string)
    (guessMimeType : string -> string) (fresh_cell : nat -> byte)
    (requests : list (FileSystem * string)) (h : host) : host :=
  match requests with
  | [] => h
  | (fs, uri) :: requests' =>
      serve baseDiskPath validIndexes guessMimeType fresh_cell requests'
        (snd (getResource baseDiskPath validIndexes guessMimeType fs
                fresh_cell uri h))
  end.

(** The kinds of journal entries, and how many of a kind a journal holds. *)
Definition is_stat (e : event) : bool :=
  match e with EvStat _ => true | _ => false end.

Definition is_open (e : event) : bool :=
  match e with EvOpen _ => true | _ => false end.

Definition is_read (e : event) : bool :=
  match e with EvRead _ _ => true | _ => false end.

Definition is_opendir (e : event) : bool :=
  match e with EvOpendir _ => true | _ => false end.

Definition is_insert (e : event) : bool :=
  match e with EvInsert _ => true | _ => false end.

Definition count (kind : event -> bool) (es : list event) : nat :=
  length (List.filter kind es).

(** A journal extension within the means of one call of [loadFile]: no
    [stat], no [opendir], at most one open, one read and one insertion. *)
Definition file_budget (es : list event) : Prop :=
  count is_stat es = 0%nat /\ count is_opendir es = 0%nat /\
  (count is_open es <= 1)%nat /\ (count is_read es <= 1)%nat /\
  (count is_insert es <= 1)%nat.

(** A journal extension within the means of one request over [n] index
    candidates: at most [n] + 1 [stat], and at most one each of open,
    read, [opendir] and insertion, a file being opened or a directory, not
    both. *)
Definition request_budget (n : nat) (es : list event) : Prop :=
  (count is_stat es <= S n)%nat /\
  (count is_open es + count is_opendir es <= 1)%nat /\
  (count is_read es <= 1)%nat /\ (count is_insert es <= 1)%nat.

(** A yard beside the document root: a directory [private] whose index
    page has no permission bit at all, a directory [sealed] without index
    and without permission bits, a character device and a FIFO. *)
Definition yard_stat : list (string * stat_t) :=
  [ ("./htdocs/private",            mk_stat 16877 4096); (* 0040755 *)
    ("./htdocs/private/",           mk_stat 16877 4096);
    ("./htdocs/private/index.html", mk_stat 32768 5);    (* 0100000 *)
    ("./htdocs/sealed",             mk_stat 16384 4096); (* 0040000 *)
    ("./htdocs/sealed/",            mk_stat 16384 4096);
    ("./htdocs/tty",                mk_stat 8630 0);     (* 0020666 *)
    ("./htdocs/pipe",               mk_stat 4516 0) ].   (* 0010644 *)

Definition yard_fs : FileSystem :=
  {| fs_stat := lookup_path yard_stat;
     fs_open := fun _ => None;
     fs_opendir := fun _ => None |}.

(** The host after [/docs] has been requested twice. *)
Definition after_docs_twice : host :=
  logged after_docs (docs_load ++ [EvInsert "./htdocs/docs/index.html"]).

(** ** A hyperlink and a hidden name, in the words of the spec

    These are set against [link] and [hidden], which are what the code
    writes and tests. *)

(** An HTML hyperlink to [target] with the display text [text]. *)
Definition hyperlink (target text : string) : string :=
  "<a href=" +:+ String "034"%char EmptyString +:+ target
    +:+ String "034"%char EmptyString +:+ ">" +:+ text +:+ "</a>".

(** The name begins with a period. *)
Definition begins_with_period (d_name : string) : bool :=
  String.prefix "." d_name.

(** The string [s] has [piece] somewhere in it. *)
Definition contains (s piece : string) : Prop :=
  exists before after, s = before +:+ piece +:+ after.

(** A cellar below the document root: a directory of mode 0300, which its
    owner can enter and not enumerate, with one file in it. *)
Definition cellar_stat : list (string * stat_t) :=
  [ ("./htdocs/cellar",       mk_stat 16576 4096); (* 0040300 *)
    ("./htdocs/cellar/",      mk_stat 16576 4096);
    ("./htdocs/cellar/a.txt", mk_stat 33188 3) ].  (* 0100644 *)

Definition cellar_fs : FileSystem :=
  {| fs_stat := lookup_path cellar_stat;
     fs_open := lookup_path [("./htdocs/cellar/a.txt", [x61; x62; x63])];
     fs_opendir := fun _ => None |}.

Definition cellar_a_txt : Resource :=
  {| location := "./htdocs/cellar/a.txt"; directory := false;
     mimeType := "text/html"; data := [x61; x62; x63]; size := 3 |}.

(** The listing of [./htdocs/img/], character by character. *)
Definition img_listing : string :=
  "<html><head><title>/</title></head><body><h1>Index of /</h1><hr><br />"
  +:+ "<a href=" +:+ String "034"%char "/a.png" +:+ String "034"%char ">"
  +:+ "a.png</a><br />"
  +:+ "<a href=" +:+ String "034"%char "/b.png" +:+ String "034"%char ">"
  +:+ "b.png</a><br />"
  +:+ "</body></html>".

(** ** Elementary facts *)

Lemma logged_nil h : logged h [] = h.
Proof. destruct h as [m j]. unfold logged. simpl. by rewrite app_nil_r. Qed.

Lemma logged_logged h es es' : logged (logged h es) es' = logged h (es ++ es').
Proof. unfold logged. simpl. by rewrite app_assoc. Qed.

Lemma journal_grows h es : es <> [] -> logged h es <> h.
Proof.
  intros Hes Heq. apply (f_equal journal) in Heq. simpl in Heq.
  apply (f_equal length) in Heq. rewrite length_app in Heq.
  destruct es; [done | simpl in Heq; lia].
Qed.

Lemma append_cons x (a b : string) : String x a +:+ b = String x (a +:+ b).
Proof. reflexivity. Qed.

Lemma append_assoc (a b c : string) : (a +:+ b) +:+ c = a +:+ b +:+ c.
Proof.
  induction a as [| x a IH]; [done |]. by rewrite !append_cons, IH.
Qed.

Lemma append_empty_r (a : string) : a +:+ EmptyString = a.
Proof.
  induction a as [| x a IH]; [done |]. by rewrite append_cons, IH.
Qed.

Lemma c_str_idem s : c_str (c_str s) = c_str s.
Proof.
  induction s as [| c s IH]; [done |]. simpl.
  destruct (Ascii.eqb c NUL) eqn:E; [done |]. simpl. by rewrite E, IH.
Qed.

Lemma map_insert_fresh k r (m : gmap string Resource) :
  m !! k = None -> map_insert k r m !! k = Some r.
Proof. intros H. unfold map_insert. rewrite H. apply lookup_insert_eq. Qed.

Lemma map_insert_present k r r0 (m : gmap string Resource) :
  m !! k = Some r0 -> map_insert k r m = m.
Proof. intros H. unfold map_insert. by rewrite H. Qed.

Lemma map_insert_other k k' r (m : gmap string Resource) :
  k <> k' -> map_insert k r m !! k' = m !! k'.
Proof.
  intros H. unfold map_insert. destruct (m !! k); [done |].
  by apply lookup_insert_ne.
Qed.

Lemma clearCache_forgets h k : cacheMap (snd (clearCache h)) !! k = None.
Proof. apply lookup_empty. Qed.

Lemma bits_set_true m mask : bits_set m mask = true <-> Z.land m mask <> 0.
Proof. unfold bits_set. by rewrite negb_true_iff, Z.eqb_neq. Qed.

Lemma bits_set_false m mask : bits_set m mask = false <-> Z.land m mask = 0.
Proof. unfold bits_set. by rewrite negb_false_iff, Z.eqb_eq. Qed.

(** A mask inside the type field sees only the type field. *)
Lemma land_type_field m mask :
  Z.land S_IFMT mask = mask -> Z.land m mask = Z.land (Z.land m S_IFMT) mask.
Proof. intros H. by rewrite <- Z.land_assoc, H. Qed.

Lemma S_ISREG_bits m :
  S_ISREG m = true ->
  bits_set m S_IFDIR = false /\ bits_set m S_IFREG = true.
Proof.
  unfold S_ISREG. rewrite Z.eqb_eq. intros H. split.
  - apply bits_set_false. rewrite (land_type_field m S_IFDIR) by reflexivity.
    by rewrite H.
  - apply bits_set_true. rewrite (land_type_field m S_IFREG) by reflexivity.
    by rewrite H.
Qed.

Lemma S_ISDIR_bits m : S_ISDIR m = true -> bits_set m S_IFDIR = true.
Proof.
  unfold S_ISDIR. rewrite Z.eqb_eq. intros H.
  apply bits_set_true. rewrite (land_type_field m S_IFDIR) by reflexivity.
  by rewrite H.
Qed.

Lemma valid_uri_passes uri :
  valid_uri uri ->
  (255 <? String.length uri)%nat || (String.length uri =? 0)%nat = false.
Proof.
  intros [Hne Hle]. apply orb_false_iff. split.
  - apply Nat.ltb_ge. lia.
  - apply Nat.eqb_neq. destruct uri; [done | simpl; lia].
Qed.

(** *** The buffer a file is read into *)

Lemma read_into_length fresh_cell len content :
  length (read_into fresh_cell len content) = len.
Proof.
  unfold read_into. rewrite length_app, length_fmap, length_seq, length_take.
  lia.
Qed.

Lemma read_into_prefix fresh_cell len content i :
  (i < len)%nat -> (i < length content)%nat ->
  read_into fresh_cell len content !! i = content !! i.
Proof.
  intros Hi Hc. unfold read_into.
  rewrite lookup_app_l by (rewrite length_take; lia).
  by apply lookup_take_lt.
Qed.

Lemma read_into_exact fresh_cell content :
  read_into fresh_cell (length content) content = content.
Proof.
  unfold read_into. rewrite firstn_all, Nat.sub_diag. simpl.
  by rewrite app_nil_r.
Qed.

(** *** The entry loop is a filter followed by a map *)

Lemma list_entries_filter uri ents out :
  list_entries uri ents out
  = out +:+ concat_strings (link uri <$> List.filter visible ents).
Proof.
  revert out. induction ents as [| d ents IH]; intros out.
  - simpl. by rewrite append_empty_r.
  - cbn [list_entries List.filter]. unfold visible at 1.
    destruct (hidden d); cbn [negb].
    + apply IH.
    + rewrite IH. cbn [fmap list_fmap concat_strings].
      by rewrite append_assoc.
Qed.

(** *** What the code writes and tests, in the words of the spec *)

Lemma hidden_begins_with_period d_name :
  hidden d_name = begins_with_period d_name.
Proof.
  destruct d_name as [| c d]; [done |].
  unfold begins_with_period. cbn [hidden String.prefix].
  destruct (ascii_dec "." c) as [<- | Hne]; [by destruct d |].
  apply Ascii.eqb_neq. congruence.
Qed.

Lemma link_is_hyperlink uri d_name :
  link uri d_name = hyperlink (uri +:+ d_name) d_name +:+ "<br />".
Proof.
  unfold link, hyperlink, dquote. by rewrite !append_assoc.
Qed.

Lemma links_are_hyperlinks uri ents :
  link uri <$> List.filter visible ents
  = (fun d => hyperlink (uri +:+ d) d +:+ "<br />")
      <$> List.filter (fun d => negb (begins_with_period d)) ents.
Proof.
  induction ents as [| d ents IH]; [done |].
  cbn [List.filter]. unfold visible at 1.
  rewrite hidden_begins_with_period.
  destruct (begins_with_period d); cbn [negb]; [done |].
  cbn [fmap list_fmap]. rewrite link_is_hyperlink. f_equal. exact IH.
Qed.

Lemma concat_strings_In (f : string -> string) x l :
  In x l ->
  exists before after, concat_strings (f <$> l) = before +:+ f x +:+ after.
Proof.
  induction l as [| y l IH]; [done |]. intros [-> | Hin].
  - exists EmptyString, (concat_strings (f <$> l)). reflexivity.
  - destruct (IH Hin) as (before & after & Heq).
    exists (f y +:+ before), after.
    cbn [fmap list_fmap concat_strings]. fold (fmap f l).
    by rewrite Heq, append_assoc.
Qed.

Lemma empty_contains_no_hyperlink target text :
  ~ contains EmptyString (hyperlink target text).
Proof.
  intros (before & after & Heq). destruct before as [| c before].
  - unfold hyperlink in Heq. by rewrite !append_cons in Heq.
  - by rewrite append_cons in Heq.
Qed.

(** ** The member functions, branch by branch *)

Section Facts.

Variable baseDiskPath : string.
Variable validIndexes : list string.
Variable guessMimeType : string -> string.
Variable fs : FileSystem.
Variable fresh_cell : nat -> byte.

Abbreviation loadFile' := (loadFile guessMimeType fs fresh_cell).
Abbreviation probe_indexes' := (probe_indexes guessMimeType fs fresh_cell).
Abbreviation listDirectory' := (listDirectory baseDiskPath fs).
Abbreviation loadDirectory' :=
  (loadDirectory baseDiskPath validIndexes guessMimeType fs fresh_cell).
Abbreviation getResource' :=
  (getResource baseDiskPath validIndexes guessMimeType fs fresh_cell).
Abbreviation file_resource' := (file_resource guessMimeType fresh_cell).

(** *** [loadFile] *)

Lemma loadFile_denied path sb h :
  bits_set (st_mode sb) S_IRWXU = false ->
  loadFile' path sb h = (None, h).
Proof. intros H. unfold loadFile. by rewrite H. Qed.

Lemma loadFile_unopened path sb h :
  bits_set (st_mode sb) S_IRWXU = true ->
  fs_open fs (c_str path) = None ->
  loadFile' path sb h = (None, logged h [EvOpen (c_str path)]).
Proof.
  intros Hp Ho. unfold loadFile, bind. rewrite Hp. simpl. by rewrite Ho.
Qed.

Lemma loadFile_loaded path sb content h :
  bits_set (st_mode sb) S_IRWXU = true ->
  fs_open fs (c_str path) = Some content ->
  loadFile' path sb h =
    (Some (file_resource' path sb content),
     stored (logged h [EvOpen (c_str path);
                       EvNew (to_uint (st_size sb));
                       EvRead (c_str path) (to_uint (st_size sb))])
            path (file_resource' path sb content)).
Proof.
  intros Hp Ho. unfold loadFile, bind. rewrite Hp. simpl.
  rewrite Ho. simpl. unfold stored, logged, file_resource, getLocation.
  simpl. by rewrite <- !app_assoc.
Qed.

(** Whatever [loadFile] returns has been offered to the cache under its own
    location, and a miss leaves the cache as it was. *)
Lemma loadFile_cache path sb h :
  match loadFile' path sb h with
  | (Some r, h') =>
      location r = path /\
      cacheMap h' = map_insert (location r) r (cacheMap h)
  | (None, h') => cacheMap h' = cacheMap h
  end.
Proof.
  destruct (bits_set (st_mode sb) S_IRWXU) eqn:Hp.
  - destruct (fs_open fs (c_str path)) as [content |] eqn:Ho.
    + by rewrite (loadFile_loaded _ _ content).
    + by rewrite loadFile_unopened.
  - by rewrite loadFile_denied.
Qed.

(** *** The index probe *)

Lemma probe_indexes_none path idxs h :
  Forall (fun idx => fs_stat fs (c_str (path +:+ idx)) = None) idxs ->
  probe_indexes' path idxs h = (None, logged h (probes path idxs)).
Proof.
  intros Hall. revert h. induction Hall as [| idx idxs Hidx _ IH]; intros h.
  - simpl. unfold ret. by rewrite logged_nil.
  - cbn [probe_indexes]. unfold bind at 1. simpl. rewrite Hidx.
    fold (logged h [EvStat (c_str (path +:+ idx))]).
    rewrite IH, logged_logged. done.
Qed.

Lemma probe_indexes_found path before idx after sidx h :
  Forall (fun i => fs_stat fs (c_str (path +:+ i)) = None) before ->
  fs_stat fs (c_str (path +:+ idx)) = Some sidx ->
  probe_indexes' path (before ++ idx :: after) h =
    (let '(r, h') := loadFile' (c_str (path +:+ idx)) sidx
                       (logged h (probes path (before ++ [idx]))) in
     (Some r, h')).
Proof.
  intros Hall Hidx. revert h.
  induction Hall as [| i before Hi _ IH]; intros h.
  - cbn [app probe_indexes]. unfold bind at 1. simpl. rewrite Hidx.
    unfold bind, ret. done.
  - cbn [app probe_indexes]. unfold bind at 1. simpl. rewrite Hi.
    fold (logged h [EvStat (c_str (path +:+ i))]).
    rewrite IH, logged_logged. done.
Qed.

(** *** [listDirectory] *)

Lemma listDirectory_unopened path h :
  fs_opendir fs (c_str path) = None ->
  listDirectory' path h = (EmptyString, logged h [EvOpendir (c_str path)]).
Proof. intros Ho. unfold listDirectory, bind. simpl. by rewrite Ho. Qed.

Lemma listDirectory_opened path ents h :
  fs_opendir fs (c_str path) = Some ents ->
  listDirectory' path h =
    (page (listing_uri baseDiskPath path)
          (link (listing_uri baseDiskPath path) <$> List.filter visible ents),
     logged h [EvOpendir (c_str path)]).
Proof.
  intros Ho. unfold listDirectory, bind. simpl. rewrite Ho. unfold ret.
  f_equal. rewrite list_entries_filter. unfold page.
  by rewrite !append_assoc.
Qed.

(** *** [loadDirectory] *)

Lemma loadDirectory_index path sb h before idx after sidx :
  validIndexes = before ++ idx :: after ->
  Forall (fun i => fs_stat fs (c_str (normalize path +:+ i)) = None) before ->
  fs_stat fs (c_str (normalize path +:+ idx)) = Some sidx ->
  loadDirectory' path sb h =
    loadFile' (c_str (normalize path +:+ idx)) sidx
      (logged h (probes (normalize path) (before ++ [idx]))).
Proof.
  intros Hv Hall Hidx. unfold loadDirectory, bind.
  rewrite Hv, (probe_indexes_found _ _ _ _ sidx) by done.
  by destruct (loadFile' _ _ _) as [r h'].
Qed.

Lemma loadDirectory_denied path sb h :
  Forall (fun i => fs_stat fs (c_str (normalize path +:+ i)) = None)
         validIndexes ->
  bits_set (st_mode sb) S_IRWXU = false ->
  loadDirectory' path sb h =
    (None, logged h (probes (normalize path) validIndexes)).
Proof.
  intros Hall Hp. unfold loadDirectory, bind.
  rewrite probe_indexes_none by done. by rewrite Hp.
Qed.

Lemma loadDirectory_listing path sb h :
  Forall (fun i => fs_stat fs (c_str (normalize path +:+ i)) = None)
         validIndexes ->
  bits_set (st_mode sb) S_IRWXU = true ->
  loadDirectory' path sb h =
    (let '(listing, h1) :=
       listDirectory' (normalize path)
         (logged h (probes (normalize path) validIndexes)) in
     let res := listing_resource (normalize path) listing in
     (Some res,
      stored (logged h1 [EvNew (to_uint (Z.of_nat (String.length listing)))])
             (normalize path) res)).
Proof.
  intros Hall Hp. unfold loadDirectory, bind.
  rewrite probe_indexes_none by done. rewrite Hp. simpl.
  by destruct (listDirectory' _ _) as [listing h1].
Qed.

(** *** What the loaders do to the cache *)

Lemma probe_indexes_cache path idxs h :
  match probe_indexes' path idxs h with
  | (Some (Some r), h') => cacheMap h' = map_insert (location r) r (cacheMap h)
  | (_, h') => cacheMap h' = cacheMap h
  end.
Proof.
  revert h. induction idxs as [| idx idxs IH]; intros h; [done |].
  cbn [probe_indexes]. unfold bind at 1. simpl.
  destruct (fs_stat fs (c_str (path +:+ idx))) as [sidx |].
  - unfold bind, ret.
    pose proof (loadFile_cache (c_str (path +:+ idx)) sidx
                  (logged h [EvStat (c_str (path +:+ idx))])) as Hc.
    fold (logged h [EvStat (c_str (path +:+ idx))]).
    destruct (loadFile' _ _ _) as [[r |] h']; [apply Hc | apply Hc].
  - apply (IH (logged h [EvStat (c_str (path +:+ idx))])).
Qed.

Lemma listDirectory_cache path h :
  cacheMap (snd (listDirectory' path h)) = cacheMap h.
Proof.
  unfold listDirectory, bind. simpl.
  by destruct (fs_opendir fs (c_str path)).
Qed.

Lemma loadDirectory_cache path sb h :
  match loadDirectory' path sb h with
  | (Some r, h') => cacheMap h' = map_insert (location r) r (cacheMap h)
  | (None, h') => cacheMap h' = cacheMap h
  end.
Proof.
  unfold loadDirectory, bind.
  pose proof (probe_indexes_cache (normalize path) validIndexes h) as Hp.
  destruct (probe_indexes' _ _ _) as [[[r |] |] h1]; try done.
  destruct (negb (bits_set (st_mode sb) S_IRWXU)); [done |].
  pose proof (listDirectory_cache (normalize path) h1) as Hl.
  destruct (listDirectory' _ _) as [listing h2]. simpl in *.
  by rewrite Hl, Hp.
Qed.

(** *** [getResource] *)

Lemma getResource_invalid uri h :
  uri = EmptyString \/ (255 < String.length uri)%nat ->
  getResource' uri h = (None, h).
Proof.
  intros H. unfold getResource.
  assert ((255 <? String.length uri)%nat
          || (String.length uri =? 0)%nat = true) as ->; [| done].
  apply orb_true_iff. destruct H as [-> | H]; [by right |].
  left. by apply Nat.ltb_lt.
Qed.

Lemma getResource_hit uri r h :
  valid_uri uri ->
  cacheMap h !! (baseDiskPath +:+ uri) = Some r ->
  getResource' uri h = (Some r, h).
Proof.
  intros Hv Hc. unfold getResource. rewrite valid_uri_passes by done.
  unfold bind, cache_find. by rewrite Hc.
Qed.

Lemma getResource_miss uri h :
  valid_uri uri ->
  cacheMap h !! (baseDiskPath +:+ uri) = None ->
  getResource' uri h =
    let path := baseDiskPath +:+ uri in
    let h1 := logged h [EvStat (c_str path)] in
    match fs_stat fs (c_str path) with
    | None => (None, h1)
    | Some sb =>
        if bits_set (st_mode sb) S_IFDIR then loadDirectory' path sb h1
        else if bits_set (st_mode sb) S_IFREG then loadFile' path sb h1
        else (None, h1)
    end.
Proof.
  intros Hv Hc. unfold getResource. rewrite valid_uri_passes by done.
  unfold bind, cache_find. rewrite Hc. cbv beta iota zeta.
  unfold emit, ret, logged.
  destruct (fs_stat fs (c_str (baseDiskPath +:+ uri))) as [sb |];
    [| reflexivity].
  by destruct (bits_set (st_mode sb) S_IFDIR), (bits_set (st_mode sb) S_IFREG).
Qed.

(** A request that is let through and returns a Resource either found it in
    the cache or offered it to the cache under the Resource's location. *)
Lemma getResource_cache uri h r h' :
  getResource' uri h = (Some r, h') ->
  valid_uri uri /\
  ((cacheMap h !! (baseDiskPath +:+ uri) = Some r /\ h' = h) \/
   (cacheMap h !! (baseDiskPath +:+ uri) = None /\
    cacheMap h' = map_insert (location r) r (cacheMap h))).
Proof.
  intros Hget.
  assert (valid_uri uri) as Hv.
  { destruct uri as [| c uri]; [by rewrite getResource_invalid in Hget; auto |].
    split; [done |].
    destruct (decide (255 < String.length (String c uri))%nat) as [Hl | Hl];
      [| lia].
    by rewrite getResource_invalid in Hget; auto. }
  split; [done |].
  destruct (cacheMap h !! (baseDiskPath +:+ uri)) as [r0 |] eqn:Hc.
  - left. rewrite (getResource_hit _ r0) in Hget by done. by inversion Hget.
  - right. split; [done |]. rewrite getResource_miss in Hget by done.
    simpl in Hget.
    destruct (fs_stat fs _) as [sb |]; [| done].
    destruct (bits_set (st_mode sb) S_IFDIR).
    + pose proof (loadDirectory_cache (baseDiskPath +:+ uri) sb
                    (logged h [EvStat (c_str (baseDiskPath +:+ uri))])) as Hd.
      rewrite Hget in Hd. done.
    + destruct (bits_set (st_mode sb) S_IFREG); [| done].
      pose proof (loadFile_cache (baseDiskPath +:+ uri) sb
                    (logged h [EvStat (c_str (baseDiskPath +:+ uri))])) as Hf.
      rewrite Hget in Hf. by destruct Hf.
Qed.

(** ** Properties of the resolution path *)

(** C4.  A request whose URI is empty or longer than 255 characters is
    answered with a miss at once: the result is [None] and the state of the
    host is the one before the call, so the cache is unchanged and no call
    to the file system (nor any other) has been journalled. *)
Theorem getResource_rejects_bad_uri uri h :
  uri = EmptyString \/ (255 < String.length uri)%nat ->
  getResource baseDiskPath validIndexes guessMimeType fs fresh_cell uri h
    = (None, h).
Proof.
  intros H. unfold getResource.
  destruct H as [-> | H]; [done |].
  apply Nat.ltb_lt in H. by rewrite H.
Qed.

(** C5, as the code has it.  [loadFile] is stopped by its permission check
    (it returns [None] before the file is opened, leaving the host as it
    was) exactly when none of the three owner bits read, write, execute is
    set in the snapshot, that is when [st_mode & S_IRWXU] is zero.  A file
    with only some of the three bits passes the check. *)
Theorem loadFile_stopped_iff_no_owner_bit path sb h :
  loadFile guessMimeType fs fresh_cell path sb h = (None, h)
  <-> Z.land (st_mode sb) S_IRWXU = 0.
Proof.
  split.
  - intros Hl. apply bits_set_false.
    destruct (bits_set (st_mode sb) S_IRWXU) eqn:Hp; [| done].
    destruct (fs_open fs (c_str path)) as [content |] eqn:Ho.
    + by rewrite (loadFile_loaded _ _ content) in Hl.
    + rewrite loadFile_unopened in Hl by done.
      inversion Hl as [Hj]. exfalso. revert Hj. by apply journal_grows.
  - intros Hz. apply loadFile_denied. by apply bits_set_false.
Qed.

(** C3.  When the candidates before [idx] in [validIndexes] are absent from
    the directory and [idx] is present, [loadDirectory] has called [stat]
    on the candidates in the order of the table, up to [idx] and no
    further, and its result is the result of [loadFile] on that index file
    with the snapshot of the index file.  The directory's own snapshot
    [sb] plays no part: any other snapshot gives the same outcome. *)
Theorem loadDirectory_serves_first_index path sb h before idx after sidx :
  validIndexes = before ++ idx :: after ->
  Forall (fun i => fs_stat fs (c_str (normalize path +:+ i)) = None) before ->
  fs_stat fs (c_str (normalize path +:+ idx)) = Some sidx ->
  loadDirectory baseDiskPath validIndexes guessMimeType fs fresh_cell
      path sb h
    = loadFile guessMimeType fs fresh_cell
        (c_str (normalize path +:+ idx)) sidx
        (logged h (probes (normalize path) (before ++ [idx])))
  /\ forall sb',
       loadDirectory baseDiskPath validIndexes guessMimeType fs fresh_cell
           path sb' h
       = loadDirectory baseDiskPath validIndexes guessMimeType fs fresh_cell
           path sb h.
Proof.
  intros Hv Hall Hidx. split.
  - by apply (loadDirectory_index _ _ _ before idx after).
  - intros sb'.
    rewrite (loadDirectory_index path sb' h before idx after sidx) by done.
    by rewrite (loadDirectory_index path sb h before idx after sidx).
Qed.

(** C2, as the code has it.  On a cache miss for a regular file that has an
    owner permission bit set, that opens, and whose size in the snapshot
    is below 2^32, [getResource] returns a Resource located at the composed
    path whose length is the size of the snapshot; the buffer was
    allocated with that length and filled by one read of that length, so
    it agrees with the file on every byte the file has, and is the content
    of the file when the file holds as many bytes as the snapshot says. *)
Theorem getResource_loads_regular_file uri sb content h :
  let path := baseDiskPath +:+ uri in
  valid_uri uri ->
  cacheMap h !! path = None ->
  fs_stat fs (c_str path) = Some sb ->
  S_ISREG (st_mode sb) = true ->
  Z.land (st_mode sb) S_IRWXU <> 0 ->
  fs_open fs (c_str path) = Some content ->
  0 <= st_size sb < 2 ^ 32 ->
  exists r h',
    getResource baseDiskPath validIndexes guessMimeType fs fresh_cell uri h
      = (Some r, h') /\
    location r = path /\ directory r = false /\
    size r = st_size sb /\
    Z.of_nat (length (data r)) = st_size sb /\
    (forall i, (i < length content)%nat -> Z.of_nat i < st_size sb ->
               data r !! i = content !! i) /\
    (Z.of_nat (length content) = st_size sb -> data r = content) /\
    journal h' = journal h ++ [EvStat (c_str path); EvOpen (c_str path);
                               EvNew (st_size sb);
                               EvRead (c_str path) (st_size sb);
                               EvInsert path] /\
    cacheMap h' !! path = Some r.
Proof.
  intros path Hv Hc Hs Hreg Hp Ho Hsz.
  destruct (S_ISREG_bits _ Hreg) as [Hd Hr].
  assert (to_uint (st_size sb) = st_size sb) as Hu.
  { unfold to_uint. apply Z.mod_small. lia. }
  exists (file_resource' path sb content). eexists. split.
  { rewrite getResource_miss by done. simpl. fold path.
    rewrite Hs, Hd, Hr.
    apply loadFile_loaded; [by apply bits_set_true | done]. }
  unfold file_resource. simpl. rewrite Hu.
  split; [done |]. split; [done |]. split; [done |]. split.
  { rewrite read_into_length. lia. }
  split.
  { intros i Hi Hlt. apply read_into_prefix; lia. }
  split.
  { intros Hlen. replace (Z.to_nat (st_size sb)) with (length content) by lia.
    apply read_into_exact. }
  split.
  { by rewrite <- !app_assoc. }
  by apply map_insert_fresh.
Qed.

End Facts.

(** ** The second call *)

(** X19.  When a call of [getResource] returns a Resource whose location
    is the composed path [baseDiskPath + uri] (as every regular file that
    loads does), the Resource is in the cache under that path, and the next
    call with the same URI returns the same Resource and leaves the host as
    it was: nothing is journalled (no [stat], no read, no insertion) and
    the cache is unchanged.  The second call does not depend on the file
    system: any [fs2] gives the same. *)
Theorem getResource_second_call_hits
    baseDiskPath validIndexes guessMimeType fs fresh_cell uri h r h1 :
  getResource baseDiskPath validIndexes guessMimeType fs fresh_cell uri h
    = (Some r, h1) ->
  location r = baseDiskPath +:+ uri ->
  cacheMap h1 !! (baseDiskPath +:+ uri) = Some r /\
  forall fs2,
    getResource baseDiskPath validIndexes guessMimeType fs2 fresh_cell uri h1
      = (Some r, h1).
Proof.
  intros Hget Hloc.
  destruct (getResource_cache _ _ _ _ _ _ _ _ _ Hget)
    as [Hv [[Hc ->] | [Hc Hm]]].
  - split; [done |]. intros fs2. by apply getResource_hit.
  - assert (cacheMap h1 !! (baseDiskPath +:+ uri) = Some r) as Hin.
    { rewrite Hm, Hloc. by apply map_insert_fresh. }
    split; [done |]. intros fs2. by apply getResource_hit.
Qed.

(** ** The URI shown by a listing *)

Lemma find_last_of_from_last i acc s c chars :
  char_in c chars = true ->
  find_last_of_from i acc (s +:+ String c EmptyString) chars
    = Some (i + String.length s)%nat.
Proof.
  intros Hc. revert i acc. induction s as [| x s IH]; intros i acc.
  - simpl. rewrite Hc. f_equal. lia.
  - rewrite append_cons. cbn [find_last_of_from String.length].
    rewrite IH. f_equal. lia.
Qed.

Lemma substr_append s t : substr (s +:+ t) (String.length s) = t.
Proof.
  induction s as [| x s IH]; [by destruct t |].
  by rewrite append_cons.
Qed.

(** Whenever the last character of the path occurs somewhere in
    [baseDiskPath], the URI of the listing is that one character. *)
Lemma listing_uri_last_char base s c :
  char_in c base = true ->
  listing_uri base (s +:+ String c EmptyString) = String c EmptyString.
Proof.
  intros Hc. unfold listing_uri, find_last_of.
  rewrite find_last_of_from_last by done. simpl. apply substr_append.
Qed.

Lemma normalize_ends_with_slash path :
  exists s, normalize path = s +:+ "/".
Proof.
  unfold normalize.
  destruct (last_is_not_slash path) eqn:E; [by exists path |].
  induction path as [| x path IH]; [done |].
  destruct path as [| y path].
  - simpl in E. apply negb_false_iff, Ascii.eqb_eq in E. subst x.
    by exists EmptyString.
  - destruct (IH E) as [s Hs]. exists (String x s).
    by rewrite append_cons, <- Hs.
Qed.

(** Under a base path that contains a slash, every listing made by
    [loadDirectory] is titled [/], whatever the directory. *)
Lemma listing_uri_of_directory base path :
  char_in "/"%char base = true ->
  listing_uri base (normalize path) = "/".
Proof.
  intros Hb. destruct (normalize_ends_with_slash path) as [s ->].
  by apply listing_uri_last_char.
Qed.

(** ** Paths off the intended course *)

(** The bits [getResource] tests, on each type field of [<sys/stat.h>]:
    sockets and block devices have the bit [S_IFDIR], symbolic links have
    the bit [S_IFREG]; character devices and FIFOs have neither. *)
Lemma type_bits_tested :
  bits_set S_IFSOCK S_IFDIR = true /\
  bits_set S_IFBLK S_IFDIR = true /\
  (bits_set S_IFLNK S_IFDIR = false /\ bits_set S_IFLNK S_IFREG = true) /\
  (bits_set S_IFCHR S_IFDIR = false /\ bits_set S_IFCHR S_IFREG = false) /\
  (bits_set S_IFIFO S_IFDIR = false /\ bits_set S_IFIFO S_IFREG = false).
Proof. repeat split; reflexivity. Qed.

Section Defects.

Variable baseDiskPath : string.
Variable validIndexes : list string.
Variable guessMimeType : string -> string.
Variable fs : FileSystem.
Variable fresh_cell : nat -> byte.

(** The last branch of [getResource] is reached by the modes that have
    neither of the two bits. *)
Lemma getResource_other_type uri sb h :
  valid_uri uri ->
  cacheMap h !! (baseDiskPath +:+ uri) = None ->
  fs_stat fs (c_str (baseDiskPath +:+ uri)) = Some sb ->
  bits_set (st_mode sb) S_IFDIR = false ->
  bits_set (st_mode sb) S_IFREG = false ->
  getResource baseDiskPath validIndexes guessMimeType fs fresh_cell uri h
    = (None, logged h [EvStat (c_str (baseDiskPath +:+ uri))]).
Proof.
  intros Hv Hc Hs Hd Hr. rewrite getResource_miss by done. simpl.
  by rewrite Hs, Hd, Hr.
Qed.

(** A directory that passes the permission check and that [opendir]
    refuses still yields a Resource: the empty listing. *)
Lemma loadDirectory_unopened path sb h :
  Forall (fun i => fs_stat fs (c_str (normalize path +:+ i)) = None)
         validIndexes ->
  bits_set (st_mode sb) S_IRWXU = true ->
  fs_opendir fs (c_str (normalize path)) = None ->
  loadDirectory baseDiskPath validIndexes guessMimeType fs fresh_cell path sb h
    = (Some (empty_listing (normalize path)),
       stored (logged h (probes (normalize path) validIndexes
                         ++ [EvOpendir (c_str (normalize path)); EvNew 0]))
              (normalize path) (empty_listing (normalize path))).
Proof.
  intros Hall Hp Ho. rewrite loadDirectory_listing by done.
  rewrite listDirectory_unopened by done.
  cbv zeta. by rewrite !logged_logged.
Qed.

End Defects.

(** ** The bytes of a listing *)

Lemma bytes_of_length s : length (bytes_of s) = String.length s.
Proof.
  unfold bytes_of, list_byte_of_string. rewrite length_map.
  induction s as [| c s IH]; [done |]. simpl. by rewrite IH.
Qed.

(** A listing without NUL shorter than 2^32 is in the buffer whole. *)
Lemma listing_resource_data path listing :
  c_str listing = listing ->
  Z.of_nat (String.length listing) < 2 ^ 32 ->
  data (listing_resource path listing) = bytes_of listing /\
  size (listing_resource path listing) = Z.of_nat (String.length listing).
Proof.
  intros Hc Hl. unfold listing_resource, strncpy. simpl.
  assert (to_uint (Z.of_nat (String.length listing))
          = Z.of_nat (String.length listing)) as ->.
  { unfold to_uint. apply Z.mod_small. lia. }
  split; [| done]. rewrite Nat2Z.id, Hc, <- bytes_of_length.
  apply take_app_length.
Qed.

(** ** The listing of a directory that opens *)

Section Listing.

Variable baseDiskPath : string.
Variable validIndexes : list string.
Variable guessMimeType : string -> string.
Variable fs : FileSystem.
Variable fresh_cell : nat -> byte.

(** X20.  For a directory in which no candidate index
    is found, whose snapshot has an owner permission bit set and which
    [opendir] opens with the entries [ents], the listing [listDirectory]
    generates is the document made of the title and heading followed by one
    line per entry of [ents] whose name does not begin with a period, in
    the order of [ents], each line a hyperlink to the shown URI followed by
    the name, with the name as text, and a line break; nothing is written
    for the other entries.  So the document contains the hyperlink of
    every entry that does not begin with a period.  [loadDirectory]
    returns a directory Resource located at the normalized path, and its
    buffer holds exactly this document when the document has no NUL and is
    shorter than 2^32 characters. *)
Theorem loadDirectory_lists_visible_entries path sb h ents :
  let dir := normalize path in
  let uri := listing_uri baseDiskPath dir in
  let names := List.filter (fun d => negb (begins_with_period d)) ents in
  let document :=
    "<html><head><title>" +:+ uri +:+ "</title></head><body>"
    +:+ "<h1>Index of " +:+ uri +:+ "</h1><hr><br />"
    +:+ concat_strings
          ((fun d => hyperlink (uri +:+ d) d +:+ "<br />") <$> names)
    +:+ "</body></html>" in
  Forall (fun i => fs_stat fs (c_str (dir +:+ i)) = None) validIndexes ->
  Z.land (st_mode sb) S_IRWXU <> 0 ->
  fs_opendir fs (c_str dir) = Some ents ->
  (forall h0, fst (listDirectory baseDiskPath fs dir h0) = document) /\
  (forall d, In d ents -> begins_with_period d = false ->
             contains document (hyperlink (uri +:+ d) d)) /\
  exists r h',
    loadDirectory baseDiskPath validIndexes guessMimeType fs fresh_cell
        path sb h = (Some r, h') /\
    directory r = true /\ location r = dir /\
    (nul_free document ->
     Z.of_nat (String.length document) < 2 ^ 32 ->
     string_of_list_byte (data r) = document /\
     size r = Z.of_nat (String.length document)).
Proof.
  intros dir uri names document Hall Hp Ho.
  assert (page uri (link uri <$> List.filter visible ents) = document)
    as Hdoc.
  { unfold page, document, names. by rewrite links_are_hyperlinks. }
  split; [| split].
  - intros h0. rewrite (listDirectory_opened _ _ _ ents) by done.
    exact Hdoc.
  - intros d Hin Hd.
    assert (In d names) as Hn.
    { apply filter_In. split; [done |]. by rewrite Hd. }
    destruct (concat_strings_In
                (fun d => hyperlink (uri +:+ d) d +:+ "<br />") d names Hn)
      as (before & after & Heq).
    exists ("<html><head><title>" +:+ uri +:+ "</title></head><body>"
            +:+ "<h1>Index of " +:+ uri +:+ "</h1><hr><br />" +:+ before),
           ("<br />" +:+ after +:+ "</body></html>").
    unfold document. rewrite Heq. by rewrite !append_assoc.
  - exists (listing_resource dir document). eexists. split.
    { rewrite loadDirectory_listing by (done || by apply bits_set_true).
      fold dir. rewrite (listDirectory_opened _ _ _ ents) by done.
      fold uri. rewrite Hdoc. reflexivity. }
    split; [done |]. split; [done |]. intros Hn Hlen.
    destruct (listing_resource_data dir document Hn Hlen) as [-> ->].
    split; [apply string_of_list_byte_of_string | done].
Qed.

End Listing.

(** ** The code on the document root *)

Lemma getResource_rejects_bad_uri_witness :
  (255 < String.length long_uri)%nat /\
  resolve long_uri fresh_host = (None, fresh_host).
Proof.
  assert (255 < String.length long_uri)%nat as H by (vm_compute; lia).
  split; [exact H |].
  apply getResource_rejects_bad_uri. right. exact H.
Defined.

Lemma loadFile_stopped_iff_no_owner_bit_witness :
  Z.land (st_mode (mk_stat 32768 3)) S_IRWXU = 0 /\
  loadFile mime htdocs_fs zeroed "./htdocs/a.txt" (mk_stat 32768 3) fresh_host
    = (None, fresh_host).
Proof.
  split; [reflexivity |].
  apply loadFile_stopped_iff_no_owner_bit. reflexivity.
Defined.

(** C5, as stated, fails on [a.txt]: its mode 0644 has the owner's read and
    write bits and not the execute bit, and [loadFile] loads it. *)
Lemma loadFile_accepts_partial_owner_bits :
  ~ refused_unless_all_owner_bits (loadFile mime htdocs_fs zeroed)
      "./htdocs/a.txt" (mk_stat 33188 3) fresh_host /\
  Z.land 33188 S_IRWXU = S_IRUSR + S_IWUSR /\
  loadFile mime htdocs_fs zeroed "./htdocs/a.txt" (mk_stat 33188 3) fresh_host
    = (Some a_txt,
       stored (logged fresh_host [EvOpen "./htdocs/a.txt"; EvNew 3;
                                  EvRead "./htdocs/a.txt" 3])
              "./htdocs/a.txt" a_txt).
Proof.
  split; [| split; [reflexivity | vm_compute; reflexivity]].
  intros Hclaim.
  assert (Z.land (st_mode (mk_stat 33188 3)) S_IRWXU <> S_IRWXU) as Hbits
    by (by vm_compute).
  specialize (Hclaim Hbits). vm_compute in Hclaim. discriminate Hclaim.
Qed.

(** The directory [old] holds [index.htm] only; its snapshot is taken
    here without any permission bit. *)
Lemma loadDirectory_serves_first_index_witness :
  indexes = ["index.html"] ++ "index.htm" :: [] /\
  Forall (fun i => fs_stat htdocs_fs (c_str (normalize "./htdocs/old" +:+ i))
                   = None) ["index.html"] /\
  fs_stat htdocs_fs (c_str (normalize "./htdocs/old" +:+ "index.htm"))
    = Some (mk_stat 33188 2) /\
  loadDirectory htdocs indexes mime htdocs_fs zeroed
      "./htdocs/old" (mk_stat 16384 4096) fresh_host
    = (Some old_index_page,
       stored (logged fresh_host
                 [EvStat "./htdocs/old/index.html";
                  EvStat "./htdocs/old/index.htm";
                  EvOpen "./htdocs/old/index.htm"; EvNew 2;
                  EvRead "./htdocs/old/index.htm" 2])
              "./htdocs/old/index.htm" old_index_page).
Proof.
  assert (Forall (fun i => fs_stat htdocs_fs
                             (c_str (normalize "./htdocs/old" +:+ i)) = None)
                 ["index.html"]) as Hall.
  { constructor; [reflexivity | constructor]. }
  split; [reflexivity |]. split; [exact Hall |]. split; [reflexivity |].
  etransitivity.
  - exact (proj1 (loadDirectory_serves_first_index
                    htdocs indexes mime htdocs_fs zeroed
                    "./htdocs/old" (mk_stat 16384 4096) fresh_host
                    ["index.html"] "index.htm" [] (mk_stat 33188 2)
                    eq_refl Hall eq_refl)).
  - vm_compute. reflexivity.
Defined.

(** The directory [img]: of its five entries the listing shows [a.png]
    and [b.png]; [.], [..] and [.git] are left out. *)
Lemma loadDirectory_lists_visible_entries_witness :
  Forall (fun i => fs_stat htdocs_fs (c_str (normalize "./htdocs/img" +:+ i))
                   = None) indexes /\
  Z.land (st_mode (mk_stat 16877 4096)) S_IRWXU <> 0 /\
  fs_opendir htdocs_fs (c_str (normalize "./htdocs/img"))
    = Some ["."; ".."; "a.png"; ".git"; "b.png"] /\
  fst (listDirectory htdocs htdocs_fs "./htdocs/img/" fresh_host)
    = img_listing /\
  contains img_listing (hyperlink "/a.png" "a.png") /\
  exists r h',
    loadDirectory htdocs indexes mime htdocs_fs zeroed
        "./htdocs/img" (mk_stat 16877 4096) fresh_host = (Some r, h') /\
    directory r = true /\ location r = "./htdocs/img/" /\
    string_of_list_byte (data r) = img_listing /\
    size r = 148.
Proof.
  assert (Forall (fun i => fs_stat htdocs_fs
                             (c_str (normalize "./htdocs/img" +:+ i)) = None)
                 indexes) as Hall.
  { repeat constructor. }
  assert (Z.land (st_mode (mk_stat 16877 4096)) S_IRWXU <> 0) as Hp.
  { vm_compute. lia. }
  split; [exact Hall |]. split; [exact Hp |]. split; [reflexivity |].
  destruct (loadDirectory_lists_visible_entries
              htdocs indexes mime htdocs_fs zeroed
              "./htdocs/img" (mk_stat 16877 4096) fresh_host
              ["."; ".."; "a.png"; ".git"; "b.png"]
              Hall Hp eq_refl)
    as (Hlist & Hlink & r & h' & Hload & Hdir & Hloc & Hbytes).
  split; [exact (Hlist fresh_host) |].
  split.
  { apply (Hlink "a.png"); [right; right; by left | reflexivity]. }
  exists r, h'. split; [exact Hload |]. split; [exact Hdir |].
  split; [exact Hloc |]. apply Hbytes; reflexivity.
Defined.

(** C8: the code at the directory [cellar], requested as [/cellar].  No
    index is found in it, its mode 0300 has owner permission bits, and it
    holds the file [a.txt], whose name does not begin with a period and
    which the host serves.  But [opendir] cannot open it: [listDirectory]
    returns the empty string, and [getResource] returns that as the listing
    of the directory, a Resource with an empty buffer, which has no
    hyperlink, for [a.txt] or for anything. *)
Theorem getResource_unreadable_directory_lists_nothing :
  Forall (fun i => fs_stat cellar_fs
                     (c_str (normalize "./htdocs/cellar" +:+ i)) = None)
         indexes /\
  S_ISDIR 16576 = true /\ Z.land 16576 S_IRWXU <> 0 /\
  begins_with_period "a.txt" = false /\
  fst (getResource htdocs indexes mime cellar_fs zeroed
         "/cellar/a.txt" fresh_host) = Some cellar_a_txt /\
  fst (listDirectory htdocs cellar_fs "./htdocs/cellar/" fresh_host)
    = EmptyString /\
  fst (getResource htdocs indexes mime cellar_fs zeroed "/cellar" fresh_host)
    = Some (empty_listing "./htdocs/cellar/") /\
  ~ (exists target,
       contains (string_of_list_byte (data (empty_listing "./htdocs/cellar/")))
                (hyperlink target "a.txt")).
Proof.
  split; [repeat constructor |]. split; [reflexivity |].
  split; [by vm_compute |]. split; [reflexivity |].
  split; [vm_compute; reflexivity |]. split; [vm_compute; reflexivity |].
  split; [vm_compute; reflexivity |].
  intros (target & Hc). by apply empty_contains_no_hyperlink in Hc.
Qed.

Lemma getResource_loads_regular_file_witness :
  valid_uri "/a.txt" /\
  cacheMap fresh_host !! (htdocs +:+ "/a.txt") = None /\
  fs_stat htdocs_fs (c_str (htdocs +:+ "/a.txt")) = Some (mk_stat 33188 3) /\
  S_ISREG 33188 = true /\
  Z.land 33188 S_IRWXU <> 0 /\
  fs_open htdocs_fs (c_str (htdocs +:+ "/a.txt")) = Some [x61; x62; x63] /\
  exists r h',
    resolve "/a.txt" fresh_host = (Some r, h') /\
    size r = 3 /\ data r = [x61; x62; x63].
Proof.
  assert (valid_uri "/a.txt") as Hv.
  { split; [discriminate | simpl; lia]. }
  assert (Z.land 33188 S_IRWXU <> 0) as Hp.
  { vm_compute. lia. }
  assert (0 <= 3 < 2 ^ 32) as Hsz by lia.
  split; [exact Hv |]. split; [reflexivity |]. split; [reflexivity |].
  split; [reflexivity |]. split; [exact Hp |]. split; [reflexivity |].
  destruct (getResource_loads_regular_file
              htdocs indexes mime htdocs_fs zeroed
              "/a.txt" (mk_stat 33188 3) [x61; x62; x63] fresh_host
              Hv eq_refl eq_refl eq_refl Hp eq_refl Hsz)
    as (r & h' & Hget & _ & _ & Hsize & _ & _ & Hdata & _).
  exists r, h'. split; [exact Hget |]. split; [exact Hsize |].
  apply Hdata. reflexivity.
Defined.

Lemma getResource_second_call_hits_witness :
  resolve "/a.txt" fresh_host = (Some a_txt, after_a_txt) /\
  location a_txt = htdocs +:+ "/a.txt" /\
  cacheMap after_a_txt !! (htdocs +:+ "/a.txt") = Some a_txt /\
  resolve "/a.txt" after_a_txt = (Some a_txt, after_a_txt).
Proof.
  assert (resolve "/a.txt" fresh_host = (Some a_txt, after_a_txt)) as Hget.
  { vm_compute. reflexivity. }
  split; [exact Hget |]. split; [reflexivity |].
  destruct (getResource_second_call_hits
              htdocs indexes mime htdocs_fs zeroed
              "/a.txt" fresh_host a_txt after_a_txt Hget eq_refl)
    as [Hin Hhit].
  split; [exact Hin |]. exact (Hhit htdocs_fs).
Defined.

(** C1: the code at the directory [docs], requested twice as [/docs].
    Both calls return the index page, with the same buffer and the same
    location.  But the first call has cached the page under
    [./htdocs/docs/index.html], the location of the page, so the second
    call finds nothing under the composed path [./htdocs/docs] and is no
    cache hit: it calls [stat] on the directory and on the index file,
    opens and reads the file again, and offers the copy to the cache, which
    already has the key and is left as it was. *)
Theorem getResource_directory_second_call_reloads :
  resolve "/docs" fresh_host = (Some index_page, after_docs) /\
  cacheMap after_docs !! (htdocs +:+ "/docs") = None /\
  resolve "/docs" after_docs = (Some index_page, after_docs_twice) /\
  journal after_docs_twice
    = journal after_docs ++ [EvStat "./htdocs/docs";
                             EvStat "./htdocs/docs/index.html";
                             EvOpen "./htdocs/docs/index.html"; EvNew 2;
                             EvRead "./htdocs/docs/index.html" 2;
                             EvInsert "./htdocs/docs/index.html"] /\
  List.filter is_fs_event
      (docs_load ++ [EvInsert "./htdocs/docs/index.html"])
    = [EvStat "./htdocs/docs"; EvStat "./htdocs/docs/index.html";
       EvOpen "./htdocs/docs/index.html";
       EvRead "./htdocs/docs/index.html" 2] /\
  cacheMap after_docs_twice = cacheMap after_docs /\
  ~ second_call_is_hit resolve "/docs" fresh_host.
Proof.
  assert (resolve "/docs" fresh_host = (Some index_page, after_docs)) as Hdocs
    by (vm_compute; reflexivity).
  assert (resolve "/docs" after_docs = (Some index_page, after_docs_twice))
    as Hagain by (vm_compute; reflexivity).
  split; [exact Hdocs |]. split; [vm_compute; reflexivity |].
  split; [exact Hagain |]. split; [reflexivity |]. split; [reflexivity |].
  split; [reflexivity |].
  intros (r1 & r2 & h1 & H1 & H2 & _).
  rewrite Hdocs in H1. inversion H1; subst r1 h1.
  rewrite Hagain in H2. apply (f_equal snd) in H2. cbn [snd] in H2.
  revert H2. apply journal_grows. discriminate.
Qed.

Lemma to_uint_four_GiB : to_uint four_GiB = 0.
Proof. reflexivity. Qed.

(** C2, as stated, fails at two files.  [wo.txt] is a regular file whose
    mode 0200 passes the permission check and which does not open for
    reading: the call returns no Resource.  [big.iso] holds 4 GiB: the
    size of the snapshot, taken into an [unsigned int], becomes 0, and the
    Resource has an empty buffer. *)
Lemma getResource_file_without_its_size :
  ~ loaded_with_stat_size resolve "/wo.txt" (mk_stat 32896 3) fresh_host /\
  ~ loaded_with_stat_size (getResource htdocs indexes mime iso_fs zeroed)
      "/big.iso" (mk_stat 33188 four_GiB) fresh_host /\
  (S_ISREG 32896 = true /\ Z.land 32896 S_IRWXU <> 0 /\
   resolve "/wo.txt" fresh_host
     = (None, logged fresh_host [EvStat "./htdocs/wo.txt";
                                 EvOpen "./htdocs/wo.txt"])) /\
  (S_ISREG 33188 = true /\ Z.land 33188 S_IRWXU <> 0 /\
   fs_stat iso_fs "./htdocs/big.iso" = Some (mk_stat 33188 four_GiB) /\
   fs_open iso_fs "./htdocs/big.iso" = Some iso_content /\
   Z.of_nat (length iso_content) = four_GiB /\
   exists r h',
     getResource htdocs indexes mime iso_fs zeroed "/big.iso" fresh_host
       = (Some r, h') /\
     size r = 0 /\ data r = []).
Proof.
  assert (exists r h',
            getResource htdocs indexes mime iso_fs zeroed "/big.iso" fresh_host
              = (Some r, h') /\
            size r = 0 /\ data r = []) as Hiso.
  { eexists. eexists. split.
    { rewrite getResource_miss; [| split; [discriminate | simpl; lia] | done].
      change (fs_stat iso_fs (c_str (htdocs +:+ "/big.iso")))
        with (Some (mk_stat 33188 four_GiB)).
      cbv beta iota zeta.
      change (bits_set (st_mode (mk_stat 33188 four_GiB)) S_IFDIR) with false.
      change (bits_set (st_mode (mk_stat 33188 four_GiB)) S_IFREG) with true.
      cbv iota.
      apply (loadFile_loaded mime iso_fs zeroed _ _ iso_content);
        reflexivity. }
    unfold file_resource. cbn [size data st_size snd].
    rewrite to_uint_four_GiB. split; reflexivity. }
  split; [| split; [| split]].
  - intros Hclaim.
    destruct (Hclaim eq_refl eq_refl) as (r & h' & Hget & _).
    vm_compute in Hget. discriminate Hget.
  - intros Hclaim.
    destruct (Hclaim eq_refl eq_refl) as (r & h' & Hget & Hsize & _).
    destruct Hiso as (r0 & h0 & Hget0 & Hsize0 & _).
    rewrite Hget0 in Hget. inversion Hget; subst r0 h0.
    rewrite Hsize0 in Hsize. discriminate Hsize.
  - split; [reflexivity |]. split; [by vm_compute |].
    vm_compute. reflexivity.
  - split; [reflexivity |]. split; [by vm_compute |].
    split; [reflexivity |]. split; [reflexivity |]. split; [| exact Hiso].
    unfold iso_content. rewrite length_replicate. apply Z2Nat.id.
    by vm_compute.
Qed.

(** C6: the code at a Unix socket.  The type field [S_IFSOCK] (0140000)
    is neither [S_IFREG] nor [S_IFDIR], yet it has the bit [S_IFDIR]
    (0040000) that [getResource] tests, so the socket is sent to
    [loadDirectory]; no index is found below it, [opendir] fails, and the
    call returns (and caches) a directory Resource with an empty buffer
    instead of a miss. *)
Theorem getResource_serves_socket :
  fs_stat htdocs_fs "./htdocs/ctl.sock" = Some (mk_stat 49645 0) /\
  Z.land 49645 S_IFMT = S_IFSOCK /\
  S_ISREG 49645 = false /\ S_ISDIR 49645 = false /\
  bits_set 49645 S_IFDIR = true /\
  resolve "/ctl.sock" fresh_host
    = (Some (empty_listing "./htdocs/ctl.sock/"),
       stored (logged fresh_host
                 [EvStat "./htdocs/ctl.sock";
                  EvStat "./htdocs/ctl.sock/index.html";
                  EvStat "./htdocs/ctl.sock/index.htm";
                  EvOpendir "./htdocs/ctl.sock/"; EvNew 0])
              "./htdocs/ctl.sock/" (empty_listing "./htdocs/ctl.sock/")).
Proof.
  repeat split; vm_compute; reflexivity.
Qed.

(** C7: the code at a directory that cannot be opened for enumeration.
    [locked] has mode 0300; [stat] succeeds, no index is found, an owner bit
    is set, [opendir] fails and [listDirectory] returns the empty string.
    [loadDirectory] wraps the empty string in a Resource, caches it and
    returns it: the failed load is not a miss. *)
Theorem getResource_returns_failed_listing :
  S_ISDIR 16576 = true /\
  fs_opendir htdocs_fs "./htdocs/locked/" = None /\
  listDirectory htdocs htdocs_fs "./htdocs/locked/" fresh_host
    = (EmptyString, logged fresh_host [EvOpendir "./htdocs/locked/"]) /\
  resolve "/locked" fresh_host
    = (Some (empty_listing "./htdocs/locked/"),
       stored (logged fresh_host
                 [EvStat "./htdocs/locked";
                  EvStat "./htdocs/locked/index.html";
                  EvStat "./htdocs/locked/index.htm";
                  EvOpendir "./htdocs/locked/"; EvNew 0])
              "./htdocs/locked/" (empty_listing "./htdocs/locked/")).
Proof.
  repeat split; vm_compute; reflexivity.
Qed.

(** C9: the code at the directory [./htdocs/foo/] under the base path
    [./htdocs].  Stripping the base path from the front gives [/foo/];
    the code, which looks for the last character of the path that occurs
    anywhere in the base path, finds the final slash and shows [/] in the
    title, the heading and the link targets.  And for a path that does not
    begin with the base path, [/tmp/x/] under [/srv/www], the code shows [/]
    where the placeholder is expected. *)
Theorem listDirectory_shows_last_character :
  stripped_uri htdocs "./htdocs/foo/" = "/foo/" /\
  listing_uri htdocs "./htdocs/foo/" = "/" /\
  fst (listDirectory htdocs htdocs_fs "./htdocs/foo/" fresh_host)
    = page "/" [link "/" "a.txt"] /\
  stripped_uri "/srv/www" "/tmp/x/" = "?" /\
  listing_uri "/srv/www" "/tmp/x/" = "/".
Proof.
  repeat split; vm_compute; reflexivity.
Qed.

(** C10: the code at the directory [docs], requested as [/docs].  The load
    succeeds after a miss on [./htdocs/docs]; the Resource is inserted
    under [./htdocs/docs/index.html], the location of the index page, and
    a lookup of the composed path [./htdocs/docs] still finds nothing. *)
Theorem getResource_caches_index_under_its_own_path :
  cacheMap fresh_host !! (htdocs +:+ "/docs") = None /\
  resolve "/docs" fresh_host = (Some index_page, after_docs) /\
  journal after_docs = docs_load ++ [EvInsert "./htdocs/docs/index.html"] /\
  cacheMap after_docs !! (htdocs +:+ "/docs") = None /\
  cacheMap after_docs !! "./htdocs/docs/index.html" = Some index_page.
Proof.
  repeat split; vm_compute; reflexivity.
Qed.

(** ** The cache over one request and over many *)

Lemma map_insert_keeps k r k' r' (m : gmap string Resource) :
  m !! k' = Some r' -> map_insert k r m !! k' = Some r'.
Proof.
  intros H. unfold map_insert. destruct (m !! k) eqn:E; [done |].
  rewrite lookup_insert_ne; [done |]. intros ->. congruence.
Qed.

Lemma map_insert_size k r (m : gmap string Resource) :
  (stdpp.base.size (map_insert k r m) <= S (stdpp.base.size m))%nat.
Proof.
  unfold map_insert. destruct (m !! k) eqn:E; [lia |].
  rewrite map_size_insert_None by done. lia.
Qed.

Lemma map_insert_keyed r (m : gmap string Resource) :
  keyed m -> keyed (map_insert (location r) r m).
Proof.
  intros Hk k r0 Hl. unfold map_insert in Hl.
  destruct (m !! location r) eqn:E; [by apply Hk |].
  destruct (decide (location r = k)) as [<- | Hne].
  - rewrite lookup_insert_eq in Hl. congruence.
  - rewrite lookup_insert_ne in Hl by done. by apply Hk.
Qed.

Section Cache.

Variable baseDiskPath : string.
Variable validIndexes : list string.
Variable guessMimeType : string -> string.
Variable fs : FileSystem.
Variable fresh_cell : nat -> byte.

Abbreviation loadFile' := (loadFile guessMimeType fs fresh_cell).
Abbreviation loadDirectory' :=
  (loadDirectory baseDiskPath validIndexes guessMimeType fs fresh_cell).
Abbreviation getResource' :=
  (getResource baseDiskPath validIndexes guessMimeType fs fresh_cell).

Lemma getResource_none_cache uri h h' :
  getResource' uri h = (None, h') -> cacheMap h' = cacheMap h.
Proof.
  intros Hget.
  destruct (decide (uri = EmptyString \/ (255 < String.length uri)%nat))
    as [Hbad | Hok].
  { rewrite getResource_invalid in Hget by done. by inversion Hget. }
  assert (valid_uri uri) as Hv.
  { split; [tauto | lia]. }
  destruct (cacheMap h !! (baseDiskPath +:+ uri)) as [r0 |] eqn:Hc.
  { by rewrite (getResource_hit _ _ _ _ _ _ r0) in Hget. }
  rewrite getResource_miss in Hget by done. simpl in Hget.
  destruct (fs_stat fs _) as [sb |]; [| by inversion Hget].
  destruct (bits_set (st_mode sb) S_IFDIR).
  - pose proof (loadDirectory_cache baseDiskPath validIndexes guessMimeType
                  fs fresh_cell (baseDiskPath +:+ uri) sb
                  (logged h [EvStat (c_str (baseDiskPath +:+ uri))])) as Hd.
    by rewrite Hget in Hd.
  - destruct (bits_set (st_mode sb) S_IFREG); [| by inversion Hget].
    pose proof (loadFile_cache guessMimeType fs fresh_cell
                  (baseDiskPath +:+ uri) sb
                  (logged h [EvStat (c_str (baseDiskPath +:+ uri))])) as Hf.
    by rewrite Hget in Hf.
Qed.

(** One request leaves the cache as it was or offers it one Resource,
    under the location of that Resource. *)
Lemma getResource_step uri h :
  cacheMap (snd (getResource' uri h)) = cacheMap h \/
  exists r, fst (getResource' uri h) = Some r /\
            cacheMap (snd (getResource' uri h))
              = map_insert (location r) r (cacheMap h).
Proof.
  destruct (getResource' uri h) as [[r |] h'] eqn:Hget; simpl.
  - destruct (getResource_cache _ _ _ _ _ _ _ _ _ Hget)
      as [_ [[_ ->] | [_ Hm]]]; [by left | right; by exists r].
  - left. by apply getResource_none_cache in Hget.
Qed.

Lemma getResource_cache_incl uri h k r :
  cacheMap h !! k = Some r ->
  cacheMap (snd (getResource' uri h)) !! k = Some r.
Proof.
  intros Hk. destruct (getResource_step uri h) as [-> | (r0 & _ & ->)];
    [done |]. by apply map_insert_keeps.
Qed.

(** X1.  A request never removes an entry of the cache and never replaces
    the Resource of an entry; and, whatever the cache holds, the empty
    cache of a new host included, it adds at most one entry. *)
Theorem getResource_keeps_entries uri h :
  let h' := snd (getResource baseDiskPath validIndexes guessMimeType fs
                   fresh_cell uri h) in
  (forall k r, cacheMap h !! k = Some r -> cacheMap h' !! k = Some r) /\
  (stdpp.base.size (cacheMap h') <= S (stdpp.base.size (cacheMap h)))%nat.
Proof.
  split; [intros k r Hk; by apply getResource_cache_incl |].
  destruct (getResource_step uri h) as [-> | (r0 & _ & ->)]; [lia |].
  apply map_insert_size.
Qed.

(** X2.  A request that returns no Resource leaves the cache as it was,
    whatever the reason of the miss. *)
Theorem getResource_miss_leaves_cache uri h :
  fst (getResource baseDiskPath validIndexes guessMimeType fs fresh_cell
         uri h) = None ->
  cacheMap (snd (getResource baseDiskPath validIndexes guessMimeType fs
                   fresh_cell uri h)) = cacheMap h.
Proof.
  intros Hn. destruct (getResource' uri h) as [o h'] eqn:Hget.
  simpl in *. subst o. by apply getResource_none_cache in Hget.
Qed.

(** X3.  When every entry of the cache sits under the location of its
    Resource, the same holds after a request, and the location of the
    Resource the request returns is a key of the cache. *)
Theorem getResource_keeps_keyed uri h :
  keyed (cacheMap h) ->
  let answer := getResource baseDiskPath validIndexes guessMimeType fs
                  fresh_cell uri h in
  keyed (cacheMap (snd answer)) /\
  forall r, fst answer = Some r ->
            is_Some (cacheMap (snd answer) !! location r).
Proof.
  intros Hk. split.
  - destruct (getResource_step uri h) as [-> | (r0 & _ & ->)]; [done |].
    by apply map_insert_keyed.
  - intros r Hr. destruct (getResource' uri h) as [o h'] eqn:Hget.
    simpl in *. subst o.
    destruct (getResource_cache _ _ _ _ _ _ _ _ _ Hget)
      as [_ [[Hc ->] | [_ ->]]].
    + rewrite (Hk _ _ Hc). by exists r.
    + unfold map_insert. destruct (cacheMap h !! location r) eqn:E.
      * rewrite E. by eexists.
      * rewrite lookup_insert_eq. by eexists.
Qed.

(** X4.  A Resource loaded under a location the cache already holds is not
    stored: [insert] refuses the duplicate key, and the cache after the
    request is the cache before it. *)
Theorem getResource_duplicate_not_stored uri h r h' :
  getResource baseDiskPath validIndexes guessMimeType fs fresh_cell uri h
    = (Some r, h') ->
  is_Some (cacheMap h !! location r) ->
  cacheMap h' = cacheMap h.
Proof.
  intros Hget [r0 Hin].
  destruct (getResource_cache _ _ _ _ _ _ _ _ _ Hget)
    as [_ [[_ ->] | [_ ->]]]; [done |].
  by apply (map_insert_present _ _ r0).
Qed.

(** X5.  A Resource that a request loads after a miss, under a location
    absent from the cache, is a hit for every later request whose composed
    path is that location: the index page loaded through its directory is
    then served from the cache to the URI that names the page, under any
    file system. *)
Theorem getResource_hit_under_location uri h r h1 uri' :
  getResource baseDiskPath validIndexes guessMimeType fs fresh_cell uri h
    = (Some r, h1) ->
  cacheMap h !! (baseDiskPath +:+ uri) = None ->
  cacheMap h !! location r = None ->
  valid_uri uri' ->
  baseDiskPath +:+ uri' = location r ->
  forall fs2,
    getResource baseDiskPath validIndexes guessMimeType fs2 fresh_cell uri' h1
      = (Some r, h1).
Proof.
  intros Hget Hmiss Hfresh Hv Hloc fs2. apply getResource_hit; [done |].
  destruct (getResource_cache _ _ _ _ _ _ _ _ _ Hget)
    as [_ [[Hc _] | [_ ->]]]; [congruence |].
  rewrite Hloc. by apply map_insert_fresh.
Qed.

End Cache.

Lemma serve_cache_incl baseDiskPath validIndexes guessMimeType fresh_cell
    requests h k r :
  cacheMap h !! k = Some r ->
  cacheMap (serve baseDiskPath validIndexes guessMimeType fresh_cell
              requests h) !! k = Some r.
Proof.
  revert h. induction requests as [| [fs uri] requests IH]; intros h Hk;
    [done |].
  cbn [serve]. apply IH. by apply getResource_cache_incl.
Qed.

(** X6.  Once the cache holds a Resource for a URI, the URI is answered
    with that same Resource after any run of other requests, whatever the
    file systems of the run and of the answer hold: a cached Resource is
    never refreshed nor evicted. *)
Theorem serve_keeps_answer baseDiskPath validIndexes guessMimeType fresh_cell
    requests h uri r :
  valid_uri uri ->
  cacheMap h !! (baseDiskPath +:+ uri) = Some r ->
  forall fs2,
    getResource baseDiskPath validIndexes guessMimeType fs2 fresh_cell uri
      (serve baseDiskPath validIndexes guessMimeType fresh_cell requests h)
    = (Some r,
       serve baseDiskPath validIndexes guessMimeType fresh_cell requests h).
Proof.
  intros Hv Hc fs2. apply getResource_hit; [done |].
  by apply serve_cache_incl.
Qed.

(** ** The Resources the loaders build *)

Lemma to_uint_range z : 0 <= to_uint z < 2 ^ 32.
Proof. unfold to_uint. apply Z.mod_pos_bound. lia. Qed.

Lemma file_resource_well_sized guessMimeType fresh_cell path sb content :
  well_sized (file_resource guessMimeType fresh_cell path sb content).
Proof.
  pose proof (to_uint_range (st_size sb)) as Hr.
  unfold well_sized, file_resource. simpl.
  rewrite read_into_length. lia.
Qed.

Lemma strncpy_length src n : length (strncpy src n) = n.
Proof.
  unfold strncpy. rewrite length_take, length_app, length_replicate. lia.
Qed.

Lemma listing_resource_well_sized path listing :
  well_sized (listing_resource path listing).
Proof.
  pose proof (to_uint_range (Z.of_nat (String.length listing))) as Hr.
  unfold well_sized, listing_resource. simpl.
  rewrite strncpy_length. lia.
Qed.

Section Shapes.

Variable baseDiskPath : string.
Variable validIndexes : list string.
Variable guessMimeType : string -> string.
Variable fs : FileSystem.
Variable fresh_cell : nat -> byte.

Abbreviation loadFile' := (loadFile guessMimeType fs fresh_cell).
Abbreviation probe_indexes' := (probe_indexes guessMimeType fs fresh_cell).
Abbreviation loadDirectory' :=
  (loadDirectory baseDiskPath validIndexes guessMimeType fs fresh_cell).
Abbreviation getResource' :=
  (getResource baseDiskPath validIndexes guessMimeType fs fresh_cell).

Abbreviation fresh_from_loader' :=
  (fresh_from_loader guessMimeType fs fresh_cell).

Lemma loadFile_fresh path sb h r h' :
  loadFile' path sb h = (Some r, h') -> fresh_from_loader' r.
Proof.
  intros Hl. left.
  destruct (bits_set (st_mode sb) S_IRWXU) eqn:Hp;
    [| by rewrite loadFile_denied in Hl].
  destruct (fs_open fs (c_str path)) as [content |] eqn:Ho;
    [| by rewrite loadFile_unopened in Hl].
  rewrite (loadFile_loaded _ _ _ _ _ content) in Hl by done.
  inversion Hl. by exists path, sb, content.
Qed.

Lemma probe_indexes_fresh path idxs h r h' :
  probe_indexes' path idxs h = (Some (Some r), h') -> fresh_from_loader' r.
Proof.
  revert h. induction idxs as [| idx idxs IH]; intros h Hp; [done |].
  cbn [probe_indexes] in Hp. unfold bind at 1 in Hp. simpl in Hp.
  destruct (fs_stat fs (c_str (path +:+ idx))) as [sidx |].
  - unfold bind, ret in Hp.
    destruct (loadFile' _ _ _) as [[r0 |] h0] eqn:Hl; [| done].
    inversion Hp; subst. by apply loadFile_fresh in Hl.
  - by apply IH in Hp.
Qed.

Lemma loadDirectory_fresh path sb h r h' :
  loadDirectory' path sb h = (Some r, h') -> fresh_from_loader' r.
Proof.
  unfold loadDirectory, bind. intros Hl.
  destruct (probe_indexes' _ _ _) as [[[r0 |] |] h1] eqn:Hp.
  - inversion Hl; subst. by apply probe_indexes_fresh in Hp.
  - done.
  - destruct (negb (bits_set (st_mode sb) S_IRWXU)); [done |].
    destruct (listDirectory baseDiskPath fs _ _) as [listing h2].
    simpl in Hl. inversion Hl. right. by exists path, listing.
Qed.

Lemma getResource_fresh uri h r h' :
  getResource' uri h = (Some r, h') ->
  cacheMap h !! (baseDiskPath +:+ uri) = None ->
  fresh_from_loader' r.
Proof.
  intros Hget Hc.
  destruct (getResource_cache _ _ _ _ _ _ _ _ _ Hget) as [Hv _].
  rewrite getResource_miss in Hget by done. simpl in Hget.
  destruct (fs_stat fs _) as [sb |]; [| done].
  destruct (bits_set (st_mode sb) S_IFDIR);
    [by apply loadDirectory_fresh in Hget |].
  destruct (bits_set (st_mode sb) S_IFREG); [| done].
  by apply loadFile_fresh in Hget.
Qed.

Lemma fresh_well_sized r : fresh_from_loader' r -> well_sized r.
Proof.
  intros [(path & sb & content & _ & ->) | (path & listing & ->)].
  - apply file_resource_well_sized.
  - apply listing_resource_well_sized.
Qed.

(** X7.  The length field of every Resource agrees with its buffer: when it
    does for the Resources of the cache, it does for the Resource a request
    returns and for the Resources of the cache after the request, and the
    length fits 32 bits. *)
Theorem getResource_well_sized uri h :
  (forall k r, cacheMap h !! k = Some r -> well_sized r) ->
  let answer := getResource baseDiskPath validIndexes guessMimeType fs
                  fresh_cell uri h in
  (forall r, fst answer = Some r -> well_sized r) /\
  (forall k r, cacheMap (snd answer) !! k = Some r -> well_sized r).
Proof.
  intros Hall answer. unfold answer. clear answer.
  assert (forall r, fst (getResource' uri h) = Some r -> well_sized r) as Hret.
  { intros r Hr. destruct (getResource' uri h) as [o h'] eqn:Hget.
    simpl in Hr. subst o.
    destruct (getResource_cache _ _ _ _ _ _ _ _ _ Hget)
      as [_ [[Hc _] | [Hc _]]]; [by apply (Hall _ _ Hc) |].
    apply fresh_well_sized. by apply (getResource_fresh uri h r h'). }
  split; [done |]. intros k r Hk.
  destruct (getResource_step baseDiskPath validIndexes guessMimeType fs
              fresh_cell uri h) as [Heq | (r0 & Hr0 & Heq)];
    rewrite Heq in Hk; [by apply (Hall _ _ Hk) |].
  unfold map_insert in Hk.
  destruct (cacheMap h !! location r0); [by apply (Hall _ _ Hk) |].
  destruct (decide (location r0 = k)) as [<- | Hne].
  - rewrite lookup_insert_eq in Hk. inversion Hk; subst. by apply Hret.
  - rewrite lookup_insert_ne in Hk by done. by apply (Hall _ _ Hk).
Qed.

(** X8.  The directory flag tells the two kinds of loaded Resources apart:
    a Resource returned after a miss with the flag clear holds bytes read
    from a file that opened, under the path of that file, with the MIME
    type guessed from that path; one with the flag set is a generated
    listing under a path that ends with a slash, with no MIME type. *)
Theorem getResource_directory_flag uri h r h' :
  getResource baseDiskPath validIndexes guessMimeType fs fresh_cell uri h
    = (Some r, h') ->
  cacheMap h !! (baseDiskPath +:+ uri) = None ->
  (directory r = false ->
     mimeType r = guessMimeType (location r) /\
     is_Some (fs_open fs (c_str (location r)))) /\
  (directory r = true ->
     mimeType r = EmptyString /\
     exists stem, location r = stem +:+ "/").
Proof.
  intros Hget Hc.
  destruct (getResource_fresh uri h r h' Hget Hc)
    as [(path & sb & content & Ho & ->) | (path & listing & ->)]; simpl.
  - split; [| done]. intros _. split; [done |]. by exists content.
  - split; [done |]. intros _. split; [done |].
    apply normalize_ends_with_slash.
Qed.

End Shapes.

(** ** Listings and directories *)

Lemma page_not_empty uri links : page uri links <> EmptyString.
Proof. unfold page. by rewrite append_cons. Qed.

Lemma find_last_of_from_none i acc s chars :
  shares_no_char s chars = true ->
  find_last_of_from i acc s chars = acc.
Proof.
  revert i acc. induction s as [| x s IH]; intros i acc Hs; [done |].
  cbn [shares_no_char] in Hs. apply andb_true_iff in Hs as [Hx Hs].
  apply negb_true_iff in Hx. cbn [find_last_of_from]. rewrite Hx.
  by apply IH.
Qed.

Lemma find_last_of_from_split i acc pre c suf chars :
  char_in c chars = true ->
  shares_no_char suf chars = true ->
  find_last_of_from i acc (pre +:+ String c suf) chars
    = Some (i + String.length pre)%nat.
Proof.
  intros Hc Hs. revert i acc. induction pre as [| x pre IH]; intros i acc.
  - change (EmptyString +:+ String c suf) with (String c suf).
    cbn [find_last_of_from String.length]. rewrite Hc.
    rewrite find_last_of_from_none by done. f_equal. lia.
  - rewrite append_cons. cbn [find_last_of_from String.length].
    rewrite IH. f_equal. lia.
Qed.

Lemma last_is_not_slash_append s : last_is_not_slash (s +:+ "/") = false.
Proof.
  induction s as [| x s IH]; [done |].
  rewrite append_cons. destruct s as [| y s]; [done |].
  rewrite append_cons in *. exact IH.
Qed.

Lemma normalize_idem path : normalize (normalize path) = normalize path.
Proof.
  unfold normalize. destruct (last_is_not_slash path) eqn:E.
  - by rewrite last_is_not_slash_append.
  - by rewrite E.
Qed.

Section Listings.

Variable baseDiskPath : string.
Variable validIndexes : list string.
Variable guessMimeType : string -> string.
Variable fs : FileSystem.
Variable fresh_cell : nat -> byte.

Abbreviation loadFile' := (loadFile guessMimeType fs fresh_cell).
Abbreviation listDirectory' := (listDirectory baseDiskPath fs).
Abbreviation loadDirectory' :=
  (loadDirectory baseDiskPath validIndexes guessMimeType fs fresh_cell).
Abbreviation getResource' :=
  (getResource baseDiskPath validIndexes guessMimeType fs fresh_cell).

Lemma listDirectory_state path h :
  snd (listDirectory' path h) = logged h [EvOpendir (c_str path)].
Proof.
  unfold listDirectory, bind. simpl.
  by destruct (fs_opendir fs (c_str path)).
Qed.

(** X9.  [listDirectory] calls [opendir] once, on the C string of the path,
    and never touches the cache; the string it returns is empty exactly
    when [opendir] failed, so that a directory that opens, even one with
    hidden entries only, gives a document that is not empty. *)
Theorem listDirectory_empty_iff_unopened path h :
  snd (listDirectory baseDiskPath fs path h)
    = logged h [EvOpendir (c_str path)] /\
  (fst (listDirectory baseDiskPath fs path h) = EmptyString
   <-> fs_opendir fs (c_str path) = None).
Proof.
  destruct (fs_opendir fs (c_str path)) as [ents |] eqn:Ho.
  - rewrite (listDirectory_opened _ _ _ ents) by done. simpl.
    split; [done |]. split; [| done].
    intros He. by apply page_not_empty in He.
  - rewrite listDirectory_unopened by done. by simpl.
Qed.

(** X10.  The URI a listing shows is the path from its last character that
    occurs in [baseDiskPath] on, whatever comes before that character; and
    it is the placeholder [?] when the path has no character in common
    with [baseDiskPath] (as when [baseDiskPath] is empty). *)
Theorem listing_uri_from_last_shared_char path :
  (forall pre c suf,
     path = pre +:+ String c suf ->
     char_in c baseDiskPath = true ->
     shares_no_char suf baseDiskPath = true ->
     listing_uri baseDiskPath path = String c suf) /\
  (shares_no_char path baseDiskPath = true ->
   listing_uri baseDiskPath path = "?").
Proof.
  split.
  - intros pre c suf -> Hc Hs. unfold listing_uri, find_last_of.
    rewrite find_last_of_from_split by done. simpl. apply substr_append.
  - intros Hs. unfold listing_uri, find_last_of.
    by rewrite find_last_of_from_none.
Qed.

(** X11.  [loadDirectory] works on the path with one slash appended unless
    the path ends with one, so it does the same on a path and on that path
    already normalized: the same probes, the same Resource, the same cache
    key. *)
Theorem loadDirectory_trailing_slash path sb h :
  normalize (normalize path) = normalize path /\
  loadDirectory baseDiskPath validIndexes guessMimeType fs fresh_cell
      (normalize path) sb h
    = loadDirectory baseDiskPath validIndexes guessMimeType fs fresh_cell
        path sb h.
Proof.
  split; [apply normalize_idem |].
  unfold loadDirectory. by rewrite normalize_idem.
Qed.

(** X12.  An index file that is found and cannot be loaded makes the
    directory a miss: when the first candidate present has no owner
    permission bit or does not open, [loadDirectory] returns no Resource
    after the probes up to that candidate (and the open attempt, if the
    permission check let it through); the later candidates are not probed,
    the directory is not listed, the cache is unchanged. *)
Theorem loadDirectory_unloadable_index_is_miss
    path sb h before idx after sidx :
  validIndexes = before ++ idx :: after ->
  Forall (fun i => fs_stat fs (c_str (normalize path +:+ i)) = None) before ->
  fs_stat fs (c_str (normalize path +:+ idx)) = Some sidx ->
  bits_set (st_mode sidx) S_IRWXU = false \/
    fs_open fs (c_str (normalize path +:+ idx)) = None ->
  loadDirectory baseDiskPath validIndexes guessMimeType fs fresh_cell
      path sb h =
    (None,
     logged h (probes (normalize path) (before ++ [idx])
               ++ (if bits_set (st_mode sidx) S_IRWXU
                   then [EvOpen (c_str (normalize path +:+ idx))]
                   else []))).
Proof.
  intros Hv Hall Hidx Hbad.
  rewrite (loadDirectory_index _ _ _ _ _ path sb h before idx after sidx)
    by done.
  destruct (bits_set (st_mode sidx) S_IRWXU) eqn:Hp.
  - destruct Hbad as [Hbad | Hbad]; [done |].
    rewrite loadFile_unopened by (done || by rewrite c_str_idem).
    by rewrite logged_logged, c_str_idem.
  - rewrite loadFile_denied by done. by rewrite app_nil_r.
Qed.

(** X13.  A directory in which no index candidate is found and whose
    snapshot has no owner permission bit is a miss: the request has called
    [stat] on the path and on every candidate, in that order, and nothing
    else; the directory is not opened and the cache is unchanged. *)
Theorem getResource_directory_without_owner_bits uri sb h :
  let path := baseDiskPath +:+ uri in
  valid_uri uri ->
  cacheMap h !! path = None ->
  fs_stat fs (c_str path) = Some sb ->
  S_ISDIR (st_mode sb) = true ->
  Forall (fun i => fs_stat fs (c_str (normalize path +:+ i)) = None)
         validIndexes ->
  Z.land (st_mode sb) S_IRWXU = 0 ->
  getResource baseDiskPath validIndexes guessMimeType fs fresh_cell uri h =
    (None,
     logged h (EvStat (c_str path) :: probes (normalize path) validIndexes)).
Proof.
  intros path Hv Hc Hs Hd Hall Hp.
  rewrite getResource_miss by done. simpl. fold path.
  rewrite Hs, (S_ISDIR_bits _ Hd).
  rewrite loadDirectory_denied by (done || by apply bits_set_false).
  by rewrite logged_logged.
Qed.

(** X14.  A character device or a FIFO is a miss: after the one [stat] that
    shows its type, nothing is opened and the cache is unchanged.  These
    are the two types of [<sys/stat.h>] that have neither the bit of
    [S_IFDIR] nor the bit of [S_IFREG]. *)
Theorem getResource_rejects_device_and_fifo uri sb h :
  let path := baseDiskPath +:+ uri in
  valid_uri uri ->
  cacheMap h !! path = None ->
  fs_stat fs (c_str path) = Some sb ->
  Z.land (st_mode sb) S_IFMT = S_IFCHR \/
    Z.land (st_mode sb) S_IFMT = S_IFIFO ->
  getResource baseDiskPath validIndexes guessMimeType fs fresh_cell uri h
    = (None, logged h [EvStat (c_str path)]).
Proof.
  intros path Hv Hc Hs Hty.
  assert (bits_set (st_mode sb) S_IFDIR = false
          /\ bits_set (st_mode sb) S_IFREG = false) as [Hd Hr].
  { split; apply bits_set_false.
    - rewrite (land_type_field _ S_IFDIR) by reflexivity.
      by destruct Hty as [-> | ->].
    - rewrite (land_type_field _ S_IFREG) by reflexivity.
      by destruct Hty as [-> | ->]. }
  rewrite getResource_miss by done. simpl. fold path.
  by rewrite Hs, Hd, Hr.
Qed.

End Listings.

(** ** The system calls of one request *)

Lemma count_app kind a b :
  count kind (a ++ b) = (count kind a + count kind b)%nat.
Proof. unfold count. by rewrite List.filter_app, length_app. Qed.

Lemma count_cons kind e es :
  count kind (e :: es) = ((if kind e then 1 else 0) + count kind es)%nat.
Proof. unfold count. simpl. by destruct (kind e). Qed.

Section Budget.

Variable baseDiskPath : string.
Variable validIndexes : list string.
Variable guessMimeType : string -> string.
Variable fs : FileSystem.
Variable fresh_cell : nat -> byte.

Abbreviation loadFile' := (loadFile guessMimeType fs fresh_cell).
Abbreviation probe_indexes' := (probe_indexes guessMimeType fs fresh_cell).
Abbreviation loadDirectory' :=
  (loadDirectory baseDiskPath validIndexes guessMimeType fs fresh_cell).
Abbreviation getResource' :=
  (getResource baseDiskPath validIndexes guessMimeType fs fresh_cell).

Lemma loadFile_events path sb h :
  exists es,
    journal (snd (loadFile' path sb h)) = journal h ++ es /\ file_budget es.
Proof.
  destruct (bits_set (st_mode sb) S_IRWXU) eqn:Hp.
  - destruct (fs_open fs (c_str path)) as [content |] eqn:Ho.
    + rewrite (loadFile_loaded _ _ _ _ _ content) by done.
      exists [EvOpen (c_str path); EvNew (to_uint (st_size sb));
              EvRead (c_str path) (to_uint (st_size sb)); EvInsert path].
      split; [simpl; by rewrite <- app_assoc |].
      repeat split; vm_compute; lia.
    + rewrite loadFile_unopened by done. exists [EvOpen (c_str path)].
      split; [done |]. repeat split; vm_compute; lia.
  - rewrite loadFile_denied by done. exists [].
    split; [by rewrite app_nil_r |]. repeat split; vm_compute; lia.
Qed.

Lemma probe_indexes_events path idxs h :
  exists es,
    journal (snd (probe_indexes' path idxs h)) = journal h ++ es /\
    (count is_stat es <= length idxs)%nat /\
    count is_opendir es = 0%nat /\
    (count is_open es <= 1)%nat /\ (count is_read es <= 1)%nat /\
    (count is_insert es <= 1)%nat /\
    (fst (probe_indexes' path idxs h) = None ->
     count is_open es = 0%nat /\ count is_read es = 0%nat /\
     count is_insert es = 0%nat).
Proof.
  revert h. induction idxs as [| idx idxs IH]; intros h.
  - exists []. simpl. rewrite app_nil_r. repeat split; vm_compute; lia.
  - cbn [probe_indexes]. unfold bind at 1 3. simpl.
    destruct (fs_stat fs (c_str (path +:+ idx))) as [sidx |].
    + unfold bind, ret.
      match goal with
      | |- context [loadFile guessMimeType fs fresh_cell ?p ?s ?h0] =>
          destruct (loadFile_events p s h0)
            as (es & Hj & Hs & Hod & Ho & Hr & Hi);
          destruct (loadFile' p s h0) as [r h']
      end. simpl in *.
      exists (EvStat (c_str (path +:+ idx)) :: es).
      split; [by rewrite Hj, <- app_assoc |].
      rewrite !count_cons.
      cbn [is_stat is_open is_read is_opendir is_insert fst].
      repeat split; (lia || done).
    + destruct (IH (logged h [EvStat (c_str (path +:+ idx))]))
        as (es & Hj & Hs & Hod & Ho & Hr & Hi & Hn).
      unfold logged in Hj, Hn.
      exists (EvStat (c_str (path +:+ idx)) :: es).
      split; [by rewrite Hj; simpl; rewrite <- app_assoc |].
      rewrite !count_cons.
      cbn [is_stat is_open is_read is_opendir is_insert fst].
      split; [lia |]. split; [done |]. split; [done |]. split; [done |].
      split; [done |]. exact Hn.
Qed.

Lemma loadDirectory_events path sb h :
  exists es,
    journal (snd (loadDirectory' path sb h)) = journal h ++ es /\
    (count is_stat es <= length validIndexes)%nat /\
    (count is_open es + count is_opendir es <= 1)%nat /\
    (count is_read es <= 1)%nat /\ (count is_insert es <= 1)%nat.
Proof.
  unfold loadDirectory, bind.
  destruct (probe_indexes_events (normalize path) validIndexes h)
    as (es & Hj & Hs & Hod & Ho & Hr & Hi & Hn).
  destruct (probe_indexes' _ _ _) as [[r |] h1]; simpl in *.
  - exists es. repeat split; (done || lia).
  - destruct (Hn eq_refl) as (Ho0 & Hr0 & Hi0).
    destruct (negb (bits_set (st_mode sb) S_IRWXU)).
    + exists es. repeat split; (done || lia).
    + pose proof (listDirectory_state baseDiskPath fs
                    (normalize path) h1) as Hl.
      destruct (listDirectory baseDiskPath fs _ _) as [listing h2].
      simpl in *. subst h2.
      set (tail := [EvOpendir (c_str (normalize path));
                    EvNew (to_uint (Z.of_nat (String.length listing)));
                    EvInsert (normalize path)]).
      exists (es ++ tail).
      split; [simpl; rewrite Hj; by rewrite <- !app_assoc |].
      assert (count is_stat tail = 0%nat) as Ht1 by reflexivity.
      assert (count is_open tail = 0%nat) as Ht2 by reflexivity.
      assert (count is_opendir tail = 1%nat) as Ht3 by reflexivity.
      assert (count is_read tail = 0%nat) as Ht4 by reflexivity.
      assert (count is_insert tail = 1%nat) as Ht5 by reflexivity.
      rewrite !count_app. repeat split; lia.
Qed.

(** X15.  One request costs at most one [stat] for the path and one per
    index candidate, and at most one open, one read, one [opendir] and one
    cache insertion, a file being opened or a directory enumerated but not
    both; everything it does is appended to what was done before. *)
Theorem getResource_call_budget uri h :
  exists es,
    journal (snd (getResource baseDiskPath validIndexes guessMimeType fs
                    fresh_cell uri h)) = journal h ++ es /\
    request_budget (length validIndexes) es.
Proof.
  destruct (decide (uri = EmptyString \/ (255 < String.length uri)%nat))
    as [Hbad | Hok].
  { rewrite getResource_invalid by done. exists [].
    split; [by rewrite app_nil_r |]. repeat split; vm_compute; lia. }
  assert (valid_uri uri) as Hv by (split; [tauto | lia]).
  destruct (cacheMap h !! (baseDiskPath +:+ uri)) as [r0 |] eqn:Hc.
  { rewrite (getResource_hit _ _ _ _ _ _ r0) by done. exists [].
    split; [by rewrite app_nil_r |]. repeat split; vm_compute; lia. }
  rewrite getResource_miss by done. simpl.
  set (path := baseDiskPath +:+ uri).
  destruct (fs_stat fs (c_str path)) as [sb |].
  - destruct (bits_set (st_mode sb) S_IFDIR).
    + destruct (loadDirectory_events path sb (logged h [EvStat (c_str path)]))
        as (es & Hj & Hs & Ho & Hr & Hi).
      exists (EvStat (c_str path) :: es).
      split; [rewrite Hj; simpl; by rewrite <- app_assoc |].
      unfold request_budget. rewrite !count_cons.
      cbn [is_stat is_open is_read is_opendir is_insert fst].
      repeat split; lia.
    + destruct (bits_set (st_mode sb) S_IFREG).
      * destruct (loadFile_events path sb (logged h [EvStat (c_str path)]))
          as (es & Hj & Hs & Hod & Ho & Hr & Hi).
        exists (EvStat (c_str path) :: es).
        split; [rewrite Hj; simpl; by rewrite <- app_assoc |].
        unfold request_budget. rewrite !count_cons.
      cbn [is_stat is_open is_read is_opendir is_insert fst].
        repeat split; lia.
      * exists [EvStat (c_str path)]. split; [done |].
        repeat split; vm_compute; lia.
  - exists [EvStat (c_str path)]. split; [done |].
    repeat split; vm_compute; lia.
Qed.

(** X16.  After [clearCache] every request that is let through goes to the
    file system again, whatever the cache held before: the first thing it
    does is the [stat] of its composed path. *)
Theorem getResource_after_clearCache uri h :
  valid_uri uri ->
  exists es,
    journal (snd (getResource baseDiskPath validIndexes guessMimeType fs
                    fresh_cell uri (snd (clearCache h))))
      = journal h ++ EvStat (c_str (baseDiskPath +:+ uri)) :: es.
Proof.
  intros Hv. rewrite getResource_miss by (done || apply lookup_empty).
  simpl. set (path := baseDiskPath +:+ uri).
  set (h1 := logged _ _).
  assert (journal h1 = journal h ++ [EvStat (c_str path)]) as Hh1 by done.
  destruct (fs_stat fs (c_str path)) as [sb |].
  - destruct (bits_set (st_mode sb) S_IFDIR).
    + destruct (loadDirectory_events path sb h1) as (es & Hj & _).
      exists es. by rewrite Hj, Hh1, <- app_assoc.
    + destruct (bits_set (st_mode sb) S_IFREG).
      * destruct (loadFile_events path sb h1) as (es & Hj & _).
        exists es. by rewrite Hj, Hh1, <- app_assoc.
      * by exists [].
  - by exists [].
Qed.

End Budget.

(** ** The bytes of a listing, read back *)

Lemma nul_free_cons x s :
  nul_free (String x s) <-> Ascii.eqb x NUL = false /\ nul_free s.
Proof.
  unfold nul_free. cbn [c_str]. destruct (Ascii.eqb x NUL); split.
  - discriminate.
  - by intros [? _].
  - intros H. injection H as H. by split.
  - intros [_ H]. by rewrite H.
Qed.

Lemma nul_free_append a b : nul_free a -> nul_free b -> nul_free (a +:+ b).
Proof.
  intros Ha Hb. induction a as [| x a IH]; [done |].
  apply nul_free_cons in Ha as [Hx Ha]. rewrite append_cons.
  apply nul_free_cons. split; [done |]. by apply IH.
Qed.

Lemma nul_free_substr s pos : nul_free s -> nul_free (substr s pos).
Proof.
  revert s. induction pos as [| pos IH]; intros s Hs; [by destruct s |].
  destruct s as [| x s]; [done |].
  apply nul_free_cons in Hs as [_ Hs]. by apply IH.
Qed.

Lemma nul_free_concat ss :
  Forall nul_free ss -> nul_free (concat_strings ss).
Proof.
  induction 1 as [| s ss Hs _ IH]; [done |].
  by apply nul_free_append.
Qed.

Lemma nul_free_listing_uri base path :
  nul_free path -> nul_free (listing_uri base path).
Proof.
  intros Hp. unfold listing_uri.
  destruct (find_last_of path base); [by apply nul_free_substr | done].
Qed.

Lemma nul_free_link uri d_name :
  nul_free uri -> nul_free d_name -> nul_free (link uri d_name).
Proof.
  intros Hu Hd. unfold link.
  repeat (apply nul_free_append; [done || reflexivity |]). reflexivity.
Qed.

Lemma nul_free_page uri links :
  nul_free uri -> Forall nul_free links -> nul_free (page uri links).
Proof.
  intros Hu Hl. unfold page.
  repeat (apply nul_free_append;
          [done || reflexivity || by apply nul_free_concat |]).
  reflexivity.
Qed.

Section ListingBytes.

Variable baseDiskPath : string.
Variable validIndexes : list string.
Variable guessMimeType : string -> string.
Variable fs : FileSystem.
Variable fresh_cell : nat -> byte.

(** X17.  The buffer of a listing Resource reads back as the document: for
    a directory without index, with an owner permission bit, that opens
    with entries [ents], when neither the path nor the entry names hold a
    NUL and the document is shorter than 2^32 characters, the bytes of the
    Resource are the characters of the document, one for one, and its
    length is the length of the document. *)
Theorem loadDirectory_listing_bytes path sb h ents :
  let uri := listing_uri baseDiskPath (normalize path) in
  let document := page uri (link uri <$> List.filter visible ents) in
  Forall (fun i => fs_stat fs (c_str (normalize path +:+ i)) = None)
         validIndexes ->
  Z.land (st_mode sb) S_IRWXU <> 0 ->
  fs_opendir fs (c_str (normalize path)) = Some ents ->
  nul_free (normalize path) ->
  Forall nul_free ents ->
  Z.of_nat (String.length document) < 2 ^ 32 ->
  exists r,
    fst (loadDirectory baseDiskPath validIndexes guessMimeType fs fresh_cell
           path sb h) = Some r /\
    string_of_list_byte (data r) = document /\
    size r = Z.of_nat (String.length document).
Proof.
  intros uri document Hall Hp Ho Hn He Hlen.
  exists (listing_resource (normalize path) document). split.
  { rewrite loadDirectory_listing by (done || by apply bits_set_true).
    by rewrite (listDirectory_opened _ _ _ ents). }
  assert (nul_free document) as Hd.
  { apply nul_free_page; [by apply nul_free_listing_uri |].
    apply Forall_fmap. apply Forall_forall. intros d Hin.
    apply list_elem_of_In, filter_In in Hin as [Hin _].
    apply nul_free_link; [by apply nul_free_listing_uri |].
    rewrite Forall_forall in He. apply He. by apply list_elem_of_In. }
  destruct (listing_resource_data (normalize path) document Hd Hlen)
    as [-> ->].
  split; [apply string_of_list_byte_of_string | done].
Qed.

End ListingBytes.

(** ** The further properties on the document root *)

(** On the empty cache of a new host the request for [/docs] adds one
    entry; on the host that has [a.txt] the same request keeps it. *)
Lemma getResource_keeps_entries_witness :
  (stdpp.base.size (cacheMap (snd (resolve "/docs" fresh_host)))
   <= S (stdpp.base.size (cacheMap fresh_host)))%nat /\
  stdpp.base.size (cacheMap (snd (resolve "/docs" fresh_host))) = 1%nat /\
  cacheMap after_a_txt !! "./htdocs/a.txt" = Some a_txt /\
  cacheMap (snd (resolve "/docs" after_a_txt)) !! "./htdocs/a.txt"
    = Some a_txt.
Proof.
  assert (cacheMap after_a_txt !! "./htdocs/a.txt" = Some a_txt) as H
    by (vm_compute; reflexivity).
  split.
  { exact (proj2 (getResource_keeps_entries htdocs indexes mime htdocs_fs
                    zeroed "/docs" fresh_host)). }
  split; [vm_compute; reflexivity |]. split; [exact H |].
  exact (proj1 (getResource_keeps_entries htdocs indexes mime htdocs_fs zeroed
                  "/docs" after_a_txt) "./htdocs/a.txt" a_txt H).
Defined.

Lemma getResource_miss_leaves_cache_witness :
  fst (resolve "/missing" fresh_host) = None /\
  cacheMap (snd (resolve "/missing" fresh_host)) = cacheMap fresh_host.
Proof.
  assert (fst (resolve "/missing" fresh_host) = None) as H
    by (vm_compute; reflexivity).
  split; [exact H |].
  exact (getResource_miss_leaves_cache htdocs indexes mime htdocs_fs zeroed
           "/missing" fresh_host H).
Defined.

Lemma keyed_empty : keyed (cacheMap fresh_host).
Proof.
  intros k r H. cbn [fresh_host cacheMap] in H. by rewrite lookup_empty in H.
Qed.

Lemma getResource_keeps_keyed_witness :
  keyed (cacheMap fresh_host) /\
  keyed (cacheMap (snd (resolve "/docs" fresh_host))).
Proof.
  split; [exact keyed_empty |].
  exact (proj1 (getResource_keeps_keyed htdocs indexes mime htdocs_fs zeroed
                  "/docs" fresh_host keyed_empty)).
Defined.

Lemma getResource_duplicate_not_stored_witness :
  resolve "/docs" after_docs = (Some index_page, after_docs_twice) /\
  is_Some (cacheMap after_docs !! location index_page) /\
  cacheMap after_docs_twice = cacheMap after_docs.
Proof.
  assert (resolve "/docs" after_docs = (Some index_page, after_docs_twice))
    as Hget by (vm_compute; reflexivity).
  assert (is_Some (cacheMap after_docs !! location index_page)) as Hin.
  { exists index_page. vm_compute. reflexivity. }
  split; [exact Hget |]. split; [exact Hin |].
  exact (getResource_duplicate_not_stored htdocs indexes mime htdocs_fs zeroed
           "/docs" after_docs index_page after_docs_twice Hget Hin).
Defined.

Lemma getResource_hit_under_location_witness :
  resolve "/docs" fresh_host = (Some index_page, after_docs) /\
  valid_uri "/docs/index.html" /\
  htdocs +:+ "/docs/index.html" = location index_page /\
  getResource htdocs indexes mime iso_fs zeroed "/docs/index.html" after_docs
    = (Some index_page, after_docs).
Proof.
  assert (resolve "/docs" fresh_host = (Some index_page, after_docs)) as Hget
    by (vm_compute; reflexivity).
  assert (valid_uri "/docs/index.html") as Hv.
  { split; [discriminate | simpl; lia]. }
  split; [exact Hget |]. split; [exact Hv |]. split; [reflexivity |].
  exact (getResource_hit_under_location htdocs indexes mime htdocs_fs zeroed
           "/docs" fresh_host index_page after_docs "/docs/index.html"
           Hget eq_refl eq_refl Hv eq_refl iso_fs).
Defined.

Lemma serve_keeps_answer_witness :
  valid_uri "/a.txt" /\
  cacheMap after_a_txt !! (htdocs +:+ "/a.txt") = Some a_txt /\
  let later :=
    serve htdocs indexes mime zeroed
      [(htdocs_fs, "/docs"); (yard_fs, "/tty"); (htdocs_fs, "/img")]
      after_a_txt in
  getResource htdocs indexes mime yard_fs zeroed "/a.txt" later
    = (Some a_txt, later).
Proof.
  assert (valid_uri "/a.txt") as Hv.
  { split; [discriminate | simpl; lia]. }
  assert (cacheMap after_a_txt !! (htdocs +:+ "/a.txt") = Some a_txt) as Hc
    by (vm_compute; reflexivity).
  split; [exact Hv |]. split; [exact Hc |].
  exact (serve_keeps_answer htdocs indexes mime zeroed
           [(htdocs_fs, "/docs"); (yard_fs, "/tty"); (htdocs_fs, "/img")]
           after_a_txt "/a.txt" a_txt Hv Hc yard_fs).
Defined.

Lemma well_sized_empty :
  forall k r, cacheMap fresh_host !! k = Some r -> well_sized r.
Proof.
  intros k r H. cbn [fresh_host cacheMap] in H. by rewrite lookup_empty in H.
Qed.

Lemma getResource_well_sized_witness :
  (forall k r, cacheMap fresh_host !! k = Some r -> well_sized r) /\
  (forall r, fst (resolve "/img" fresh_host) = Some r -> well_sized r).
Proof.
  split; [exact well_sized_empty |].
  exact (proj1 (getResource_well_sized htdocs indexes mime htdocs_fs zeroed
                  "/img" fresh_host well_sized_empty)).
Defined.

Lemma getResource_directory_flag_witness :
  resolve "/docs" fresh_host = (Some index_page, after_docs) /\
  cacheMap fresh_host !! (htdocs +:+ "/docs") = None /\
  (directory index_page = false ->
   mimeType index_page = mime (location index_page) /\
   is_Some (fs_open htdocs_fs (c_str (location index_page)))).
Proof.
  assert (resolve "/docs" fresh_host = (Some index_page, after_docs)) as Hget
    by (vm_compute; reflexivity).
  split; [exact Hget |]. split; [reflexivity |].
  exact (proj1 (getResource_directory_flag htdocs indexes mime htdocs_fs
                  zeroed "/docs" fresh_host index_page after_docs
                  Hget eq_refl)).
Defined.

Lemma listing_uri_from_last_shared_char_witness :
  char_in "/"%char htdocs = true /\
  shares_no_char "b" htdocs = true /\
  listing_uri htdocs ("./htdocs/img" +:+ String "/"%char "b") = "/b" /\
  shares_no_char "./htdocs/img/" EmptyString = true /\
  listing_uri EmptyString "./htdocs/img/" = "?".
Proof.
  split; [reflexivity |]. split; [reflexivity |]. split.
  - exact (proj1 (listing_uri_from_last_shared_char htdocs
                    ("./htdocs/img" +:+ String "/"%char "b"))
             "./htdocs/img" "/"%char "b" eq_refl eq_refl eq_refl).
  - split; [reflexivity |].
    exact (proj2 (listing_uri_from_last_shared_char EmptyString
                    "./htdocs/img/") eq_refl).
Defined.

Lemma loadDirectory_unloadable_index_is_miss_witness :
  indexes = [] ++ "index.html" :: ["index.htm"] /\
  fs_stat yard_fs (c_str (normalize "./htdocs/private" +:+ "index.html"))
    = Some (mk_stat 32768 5) /\
  bits_set (st_mode (mk_stat 32768 5)) S_IRWXU = false /\
  loadDirectory htdocs indexes mime yard_fs zeroed
      "./htdocs/private" (mk_stat 16877 4096) fresh_host
    = (None, logged fresh_host [EvStat "./htdocs/private/index.html"]).
Proof.
  split; [reflexivity |]. split; [reflexivity |]. split; [reflexivity |].
  etransitivity.
  - exact (loadDirectory_unloadable_index_is_miss
             htdocs indexes mime yard_fs zeroed
             "./htdocs/private" (mk_stat 16877 4096) fresh_host
             [] "index.html" ["index.htm"] (mk_stat 32768 5)
             eq_refl (List.Forall_nil _) eq_refl (or_introl eq_refl)).
  - vm_compute. reflexivity.
Defined.

Lemma getResource_directory_without_owner_bits_witness :
  valid_uri "/sealed" /\
  fs_stat yard_fs (c_str (htdocs +:+ "/sealed")) = Some (mk_stat 16384 4096) /\
  S_ISDIR 16384 = true /\
  Z.land 16384 S_IRWXU = 0 /\
  getResource htdocs indexes mime yard_fs zeroed "/sealed" fresh_host
    = (None,
       logged fresh_host [EvStat "./htdocs/sealed";
                          EvStat "./htdocs/sealed/index.html";
                          EvStat "./htdocs/sealed/index.htm"]).
Proof.
  assert (valid_uri "/sealed") as Hv.
  { split; [discriminate | simpl; lia]. }
  assert (Forall (fun i => fs_stat yard_fs
                    (c_str (normalize (htdocs +:+ "/sealed") +:+ i)) = None)
                 indexes) as Hall by (repeat constructor).
  split; [exact Hv |]. split; [reflexivity |]. split; [reflexivity |].
  split; [reflexivity |].
  etransitivity.
  - exact (getResource_directory_without_owner_bits
             htdocs indexes mime yard_fs zeroed
             "/sealed" (mk_stat 16384 4096) fresh_host
             Hv eq_refl eq_refl eq_refl Hall eq_refl).
  - vm_compute. reflexivity.
Defined.

Lemma getResource_rejects_device_and_fifo_witness :
  valid_uri "/tty" /\
  fs_stat yard_fs (c_str (htdocs +:+ "/tty")) = Some (mk_stat 8630 0) /\
  Z.land 8630 S_IFMT = S_IFCHR /\
  getResource htdocs indexes mime yard_fs zeroed "/tty" fresh_host
    = (None, logged fresh_host [EvStat "./htdocs/tty"]).
Proof.
  assert (valid_uri "/tty") as Hv.
  { split; [discriminate | simpl; lia]. }
  split; [exact Hv |]. split; [reflexivity |]. split; [reflexivity |].
  exact (getResource_rejects_device_and_fifo
           htdocs indexes mime yard_fs zeroed "/tty" (mk_stat 8630 0)
           fresh_host Hv eq_refl eq_refl (or_introl eq_refl)).
Defined.

Lemma getResource_after_clearCache_witness :
  valid_uri "/a.txt" /\
  cacheMap after_a_txt !! (htdocs +:+ "/a.txt") = Some a_txt /\
  exists es,
    journal (snd (resolve "/a.txt" (snd (clearCache after_a_txt))))
      = journal after_a_txt ++ EvStat "./htdocs/a.txt" :: es.
Proof.
  assert (valid_uri "/a.txt") as Hv.
  { split; [discriminate | simpl; lia]. }
  split; [exact Hv |]. split; [vm_compute; reflexivity |].
  exact (getResource_after_clearCache htdocs indexes mime htdocs_fs zeroed
           "/a.txt" after_a_txt Hv).
Defined.

Lemma loadDirectory_listing_bytes_witness :
  fs_opendir htdocs_fs (c_str (normalize "./htdocs/img"))
    = Some ["."; ".."; "a.png"; ".git"; "b.png"] /\
  nul_free (normalize "./htdocs/img") /\
  Forall nul_free ["."; ".."; "a.png"; ".git"; "b.png"] /\
  exists r,
    fst (loadDirectory htdocs indexes mime htdocs_fs zeroed
           "./htdocs/img" (mk_stat 16877 4096) fresh_host) = Some r /\
    string_of_list_byte (data r)
      = page "/" [link "/" "a.png"; link "/" "b.png"] /\
    size r = 148.
Proof.
  assert (Forall (fun i => fs_stat htdocs_fs
                             (c_str (normalize "./htdocs/img" +:+ i)) = None)
                 indexes) as Hall by (repeat constructor).
  assert (Z.land (st_mode (mk_stat 16877 4096)) S_IRWXU <> 0) as Hp
    by (vm_compute; lia).
  assert (Forall nul_free ["."; ".."; "a.png"; ".git"; "b.png"]) as He
    by (repeat constructor).
  split; [reflexivity |]. split; [reflexivity |]. split; [exact He |].
  exact (loadDirectory_listing_bytes htdocs indexes mime htdocs_fs zeroed
           "./htdocs/img" (mk_stat 16877 4096) fresh_host
           ["."; ".."; "a.png"; ".git"; "b.png"]
           Hall Hp eq_refl eq_refl He eq_refl).
Defined.

(** ** A NUL inside the URI *)

Lemma c_str_cut a b : nul_free a -> c_str (a +:+ String NUL b) = a.
Proof.
  intros Ha. induction a as [| x a IH]; [done |].
  apply nul_free_cons in Ha as [Hx Ha]. rewrite append_cons.
  cbn [c_str]. rewrite Hx. by rewrite IH.
Qed.

Section Cut.

Variable baseDiskPath : string.
Variable validIndexes : list string.
Variable guessMimeType : string -> string.
Variable fs : FileSystem.
Variable fresh_cell : nat -> byte.

(** X18.  The system calls take the path as a C string, the cache takes it
    as a [std::string]: for a URI with a NUL in it, [stat] and open are
    asked about the path up to the NUL, and the regular file found there is
    loaded and cached under the whole path, NUL and rest included. *)
Theorem getResource_path_cut_at_NUL stem rest sb content h :
  let uri := stem +:+ String NUL rest in
  valid_uri uri ->
  nul_free (baseDiskPath +:+ stem) ->
  cacheMap h !! (baseDiskPath +:+ uri) = None ->
  fs_stat fs (baseDiskPath +:+ stem) = Some sb ->
  S_ISREG (st_mode sb) = true ->
  Z.land (st_mode sb) S_IRWXU <> 0 ->
  fs_open fs (baseDiskPath +:+ stem) = Some content ->
  exists r h',
    getResource baseDiskPath validIndexes guessMimeType fs fresh_cell uri h
      = (Some r, h') /\
    location r = baseDiskPath +:+ uri /\
    cacheMap h' !! (baseDiskPath +:+ uri) = Some r /\
    journal h' = journal h ++ [EvStat (baseDiskPath +:+ stem);
                               EvOpen (baseDiskPath +:+ stem);
                               EvNew (to_uint (st_size sb));
                               EvRead (baseDiskPath +:+ stem)
                                      (to_uint (st_size sb));
                               EvInsert (baseDiskPath +:+ uri)].
Proof.
  intros uri Hv Hn Hc Hs Hreg Hp Ho.
  destruct (S_ISREG_bits _ Hreg) as [Hd Hr].
  assert (c_str (baseDiskPath +:+ uri) = baseDiskPath +:+ stem) as Hcut.
  { unfold uri. rewrite <- append_assoc. by apply c_str_cut. }
  exists (file_resource guessMimeType fresh_cell (baseDiskPath +:+ uri)
            sb content).
  eexists. split.
  { rewrite getResource_miss by done. simpl.
    rewrite Hcut, Hs, Hd, Hr.
    apply loadFile_loaded; [by apply bits_set_true | by rewrite Hcut]. }
  split; [done |]. split; [by apply map_insert_fresh |].
  simpl. by rewrite Hcut, <- !app_assoc.
Qed.

End Cut.

Lemma getResource_path_cut_at_NUL_witness :
  valid_uri ("/a.txt" +:+ String NUL ".png") /\
  nul_free (htdocs +:+ "/a.txt") /\
  fs_stat htdocs_fs (htdocs +:+ "/a.txt") = Some (mk_stat 33188 3) /\
  fs_open htdocs_fs (htdocs +:+ "/a.txt") = Some [x61; x62; x63] /\
  exists r h',
    resolve ("/a.txt" +:+ String NUL ".png") fresh_host = (Some r, h') /\
    location r = htdocs +:+ "/a.txt" +:+ String NUL ".png".
Proof.
  assert (valid_uri ("/a.txt" +:+ String NUL ".png")) as Hv.
  { split; [discriminate | simpl; lia]. }
  assert (Z.land (st_mode (mk_stat 33188 3)) S_IRWXU <> 0) as Hp
    by (vm_compute; lia).
  split; [exact Hv |]. split; [reflexivity |]. split; [reflexivity |].
  split; [reflexivity |].
  destruct (getResource_path_cut_at_NUL htdocs indexes mime htdocs_fs zeroed
              "/a.txt" ".png" (mk_stat 33188 3) [x61; x62; x63] fresh_host
              Hv eq_refl eq_refl eq_refl eq_refl Hp eq_refl)
    as (r & h' & Hget & Hloc & _).
  exists r, h'. split; [exact Hget | exact Hloc].
Defined.
